(** * sib: object model, content-addressable store and staging index

    A shallow embedding of the storage core of the [sib] version-control
    tool (packages [objects], [storage], [index] and the parts of [utils]
    they call), together with the properties stated about it.

    Conventions.
    - A Go [string] is a [string]; a Go [[]byte] is a [list ascii]
      ([bytes]); a nil slice is [None] where the code tells nil from empty.
    - [int], [int64] are [Z]; the code never relies on wrap-around.
    - A function returning [(T, error)] returns [result T].
    - Pointer receivers that mutate ([AddEntry], [Add], [load]) take the
      old value and return the new one.
    - The file system is a finite map from paths to file contents. *)

From Stdlib Require Import ZArith NArith Ascii String List Lia Bool.
From stdpp Require Import base option list sorting gmap strings.

Local Open Scope string_scope.
Local Open Scope list_scope.
Local Open Scope Z_scope.

#[local] Set Warnings "-register-all".

(** ** Errors and results *)

Inductive result (A : Type) : Type :=
| Ok (a : A)
| Err (msg : string).
Arguments Ok {A} a.
Arguments Err {A} msg.

Definition is_ok {A} (r : result A) : bool :=
  match r with Ok _ => true | Err _ => false end.

#[global] Instance result_ret : MRet result := fun A a => Ok a.
#[global] Instance result_bind : MBind result := fun A B k r =>
  match r with Ok a => k a | Err e => Err e end.
#[global] Instance result_fmap : FMap result := fun A B f r =>
  match r with Ok a => Ok (f a) | Err e => Err e end.

(** [fmt.Errorf("ctx: %w", err)]: the message of [err] behind a prefix. *)
Definition wrap {A} (ctx : string) (r : result A) : result A :=
  match r with Ok a => Ok a | Err e => Err (ctx +:+ ": " +:+ e) end.

(** ** Bytes *)

Abbreviation bytes := (list ascii).

Definition bs (s : string) : bytes := list_ascii_of_string s.
Definition str (b : bytes) : string := string_of_list_ascii b.

Definition byte_val (c : ascii) : Z := Z.of_N (N_of_ascii c).
Definition byte_of (z : Z) : ascii := ascii_of_N (Z.to_N (z mod 256)).

Definition NUL : ascii := "000"%char.
Definition DQ : ascii := "034"%char.    (* the double quote *)
Definition BSL : ascii := "092"%char.   (* the backslash *)

(** A string between double quotes. *)
Definition dq (s : string) : list ascii := DQ :: list_ascii_of_string s ++ [DQ].

Definition is_digit (c : ascii) : bool :=
  (48 <=? byte_val c) && (byte_val c <=? 57).

(** *** Decimal text of an integer, as [%d] prints it *)

Fixpoint dec_digits (fuel : nat) (n : Z) (acc : bytes) : bytes :=
  match fuel with
  | O => acc
  | S f =>
      let acc' := byte_of (48 + n mod 10) :: acc in
      if n / 10 =? 0 then acc' else dec_digits f (n / 10) acc'
  end.

(** A number below [2 ^ k] has at most [k] decimal digits. *)
Definition dec_nonneg (n : Z) : bytes :=
  dec_digits (S (Z.to_nat (Z.log2 n))) n [].

Definition format_int (n : Z) : bytes :=
  if n <? 0 then "-"%char :: dec_nonneg (- n) else dec_nonneg n.

(** *** Lower-case hexadecimal, as [%x] prints a byte array *)

Definition hex_digit (n : Z) : ascii :=
  if n <? 10 then byte_of (48 + n) else byte_of (87 + n).

Definition hex_of_byte (c : ascii) : bytes :=
  [hex_digit (byte_val c / 16); hex_digit (byte_val c mod 16)].

Definition hex_of_bytes (b : bytes) : bytes := flat_map hex_of_byte b.

Definition is_lower_hex (c : ascii) : bool :=
  is_digit c || ((97 <=? byte_val c) && (byte_val c <=? 102)).

(** ** SHA-256 ([crypto/sha256.Sum256], FIPS 180-4)

    Words are 32-bit integers held in [Z]; every addition is reduced
    modulo [2^32]. *)

Module SHA256.

Definition w32 (x : Z) : Z := x mod 4294967296.
Definition add32 (x y : Z) : Z := w32 (x + y).
Definition rotr (n x : Z) : Z :=
  w32 (Z.lor (Z.shiftr x n) (Z.shiftl x (32 - n))).
Definition shr (n x : Z) : Z := Z.shiftr x n.
Definition not32 (x : Z) : Z := 4294967295 - x.

Definition Ch (x y z : Z) : Z :=
  Z.lxor (Z.land x y) (Z.land (not32 x) z).
Definition Maj (x y z : Z) : Z :=
  Z.lxor (Z.lxor (Z.land x y) (Z.land x z)) (Z.land y z).
Definition Sigma0 (x : Z) : Z :=
  Z.lxor (Z.lxor (rotr 2 x) (rotr 13 x)) (rotr 22 x).
Definition Sigma1 (x : Z) : Z :=
  Z.lxor (Z.lxor (rotr 6 x) (rotr 11 x)) (rotr 25 x).
Definition sigma0 (x : Z) : Z :=
  Z.lxor (Z.lxor (rotr 7 x) (rotr 18 x)) (shr 3 x).
Definition sigma1 (x : Z) : Z :=
  Z.lxor (Z.lxor (rotr 17 x) (rotr 19 x)) (shr 10 x).

(** Largest [x] below [2 ^ bits] with [x ^ 3 <= n], found bit by bit. *)
Fixpoint icbrt (bits : nat) (n x : Z) : Z :=
  match bits with
  | O => x
  | S b =>
      let y := x + 2 ^ Z.of_nat b in
      icbrt b n (if y * y * y <=? n then y else x)
  end.

Definition primes : list Z :=
  [2; 3; 5; 7; 11; 13; 17; 19; 23; 29; 31; 37; 41; 43; 47; 53; 59; 61; 67; 71;
   73; 79; 83; 89; 97; 101; 103; 107; 109; 113; 127; 131; 137; 139; 149; 151;
   157; 163; 167; 173; 179; 181; 191; 193; 197; 199; 211; 223; 227; 229; 233;
   239; 241; 251; 257; 263; 269; 271; 277; 281; 283; 293; 307; 311].

(** The round constants: the first 32 bits of the fractional parts of the
    cube roots of the first 64 primes. *)
Definition K : list Z :=
  Eval vm_compute in map (fun p => w32 (icbrt 36 (p * 2 ^ 96) 0)) primes.

(** The initial hash value: the same of the square roots of the first
    eight primes. *)
Definition H0 : list Z :=
  Eval vm_compute in map (fun p => w32 (Z.sqrt (p * 2 ^ 64))) (take 8 primes).

(** Big-endian bytes of an integer, [n] of them. *)
Fixpoint be_bytes (n : nat) (x : Z) : bytes :=
  match n with
  | O => []
  | S m => byte_of (Z.shiftr x (8 * Z.of_nat m)) :: be_bytes m x
  end.

Definition be_word (b : bytes) : Z :=
  fold_left (fun acc c => acc * 256 + byte_val c) b 0.

(** Padding: a [0x80] byte, zeros up to 56 modulo 64, then the length
    in bits on eight bytes. *)
Definition pad (msg : bytes) : bytes :=
  let len := Z.of_nat (length msg) in
  let zeros := Z.to_nat ((55 - len) mod 64) in
  msg ++ byte_of 128 :: repeat NUL zeros ++ be_bytes 8 (8 * len).

Fixpoint chunks (fuel n : nat) (b : bytes) : list bytes :=
  match fuel with
  | O => []
  | S f =>
      match b with
      | [] => []
      | _ => take n b :: chunks f n (drop n b)
      end
  end.

(** Message schedule, newest word first. *)
Fixpoint schedule (k : nat) (w : list Z) : list Z :=
  match k with
  | O => w
  | S k' =>
      let g i := nth i w 0 in
      schedule k'
        (add32 (add32 (sigma1 (g 1%nat)) (g 6%nat))
               (add32 (sigma0 (g 14%nat)) (g 15%nat)) :: w)
  end.

Definition round (s : list Z) (kw : Z * Z) : list Z :=
  match s with
  | [a; b; c; d; e; f; g; h] =>
      let t1 := add32 (add32 (add32 h (Sigma1 e))
                             (add32 (Ch e f g) (fst kw))) (snd kw) in
      let t2 := add32 (Sigma0 a) (Maj a b c) in
      [add32 t1 t2; a; b; c; add32 d t1; e; f; g]
  | _ => s
  end.

Definition block (h : list Z) (blk : bytes) : list Z :=
  let w16 := map be_word (chunks 16 4 blk) in
  let w := rev (schedule 48 (rev w16)) in
  let s := fold_left round (combine K w) h in
  map (fun p => add32 (fst p) (snd p)) (combine h s).

Definition Sum256 (msg : bytes) : bytes :=
  let p := pad msg in
  let h := fold_left block (chunks (length p) 64 p) H0 in
  flat_map (be_bytes 4) h.

End SHA256.

(** [fmt.Sprintf("%s %d", s, d)]. *)
Definition Sprintf_s_d (s : string) (d : Z) : string :=
  s +:+ " " +:+ str (format_int d).

(** ** Package [objects]: primitive types ([types.go]) *)

Definition ObjectType := string.

Definition BlobObject : ObjectType := "blob".
Definition TreeObject : ObjectType := "tree".
Definition CommitObject : ObjectType := "commit".
Definition TagObject : ObjectType := "tag".

Definition ObjectType_Validate (ot : ObjectType) : result unit :=
  if (ot =? BlobObject)%string || (ot =? TreeObject)%string
     || (ot =? CommitObject)%string || (ot =? TagObject)%string
  then Ok tt
  else Err ("invalid object type: " +:+ ot).

Definition Hash := string.

Definition Hash_String (h : Hash) : string :=
  if (h =? "")%string then "" else h.

Definition Hash_IsEmpty (h : Hash) : bool := (h =? "")%string.

Definition FileMode := string.

Definition FileModeRegular : FileMode := "100644".
Definition FileModeExec : FileMode := "100755".
Definition FileModeDir : FileMode := "40000".
Definition FileModeSymlink : FileMode := "120000".

Definition FileMode_Validate (fm : FileMode) : result unit :=
  if (fm =? FileModeRegular)%string || (fm =? FileModeExec)%string
     || (fm =? FileModeDir)%string || (fm =? FileModeSymlink)%string
  then Ok tt
  else Err ("invalid file mode: " +:+ fm).

Definition FileMode_IsDir (fm : FileMode) : bool := (fm =? FileModeDir)%string.

(** ** [blob.go] *)

Record Blob := mkBlob {
  blob_content : option bytes;  (* [None] is the nil slice *)
  blob_size : Z;
  blob_hash : Hash
}.

(** [len] of a possibly nil slice. *)
Definition len_opt (c : option bytes) : Z :=
  match c with Some b => Z.of_nat (length b) | None => 0 end.

Definition NewBlob (content : option bytes) : Blob :=
  {| blob_content := content; blob_size := len_opt content; blob_hash := "" |}.

Definition Blob_Type (b : Blob) : ObjectType := BlobObject.

Definition Blob_SetHash (b : Blob) (h : Hash) : Blob :=
  {| blob_content := blob_content b; blob_size := blob_size b; blob_hash := h |}.

Definition Blob_Serialize (b : Blob) : result bytes :=
  if blob_size b <? 0 then
    Err ("invalid blob size: " +:+ str (format_int (blob_size b)))
  else
    match blob_content b with
    | None => Err "blob content is nil"
    | Some content =>
        let actualSize := Z.of_nat (length content) in
        if negb (blob_size b =? actualSize) then
          Err ("size mismatch: declared " +:+ str (format_int (blob_size b))
               +:+ ", actual " +:+ str (format_int actualSize))
        else
          let header := Sprintf_s_d (Blob_Type b) (blob_size b) in
          let data := bs header ++ [NUL] in
          Ok (data ++ content)
    end.

(** ** Package [storage]: hashing *)

(** [calculateHash]: the digest printed with [%x]. *)
Definition calculateHash (data : bytes) : Hash :=
  str (hex_of_bytes (SHA256.Sum256 data)).


(** ** [sort.Slice]

    The library sorts up to twelve elements by insertion from the right
    (an element moves left while it is [less] than its left neighbour) and
    longer slices by pattern-defeating quicksort, which is not stable.
    The model is the insertion sort at every length.  The two agree
    whenever no two elements are equivalent under [less], which is the
    case at every call below on a tree whose names are pairwise distinct;
    with equivalent elements the library leaves their order open. *)

Section Sort.
Context {A : Type} (less : A -> A -> bool).

(** Insert [x] behind a sorted prefix held newest first. *)
Fixpoint insert_back (x : A) (racc : list A) : list A :=
  match racc with
  | [] => [x]
  | p :: racc' =>
      if less x p then p :: insert_back x racc' else x :: racc
  end.

Definition sort_Slice (l : list A) : list A :=
  rev (fold_left (fun racc x => insert_back x racc) l []).
End Sort.

(** ** [tree.go] *)

Record TreeEntry := mkTreeEntry {
  te_mode : FileMode;
  te_name : string;
  te_hash : Hash;
  te_objType : ObjectType
}.

Definition NewTreeEntry (mode : FileMode) (name : string) (hash : Hash)
    (objType : ObjectType) : result TreeEntry :=
  _ ← wrap "invalid file mode in tree entry" (FileMode_Validate mode);
  if (name =? "")%string then Err "tree entry name cannot be empty"
  else if Hash_IsEmpty hash then Err "tree entry hash cannot be empty"
  else
    _ ← wrap "invalid object type in tree entry" (ObjectType_Validate objType);
    Ok {| te_mode := mode; te_name := name; te_hash := hash;
          te_objType := objType |}.

Record Tree := mkTree {
  tree_entries : list TreeEntry;
  tree_hash : Hash
}.

Definition NewTree : Tree := {| tree_entries := []; tree_hash := "" |}.

Definition Tree_sortEntries (t : Tree) : Tree :=
  {| tree_entries :=
       sort_Slice (fun a b => (te_name a <? te_name b)%string) (tree_entries t);
     tree_hash := tree_hash t |}.

(** Index of the first entry called [name]: the [for i, e := range] loops
    of [AddEntry], [RemoveEntry] and [GetEntry]. *)
Fixpoint find_entry (name : string) (es : list TreeEntry) : option nat :=
  match es with
  | [] => None
  | e :: es' =>
      if (te_name e =? name)%string then Some O
      else S <$> find_entry name es'
  end.

Definition Tree_AddEntry (t : Tree) (entry : TreeEntry) : result Tree :=
  match find_entry (te_name entry) (tree_entries t) with
  | Some i =>
      Ok (Tree_sortEntries
            {| tree_entries := <[i := entry]> (tree_entries t);
               tree_hash := tree_hash t |})
  | None =>
      Ok (Tree_sortEntries
            {| tree_entries := tree_entries t ++ [entry];
               tree_hash := tree_hash t |})
  end.

Definition Tree_RemoveEntry (t : Tree) (name : string) : Tree * bool :=
  match find_entry name (tree_entries t) with
  | Some i =>
      ({| tree_entries := take i (tree_entries t) ++ drop (S i) (tree_entries t);
          tree_hash := tree_hash t |}, true)
  | None => (t, false)
  end.

Definition Tree_GetEntry (t : Tree) (name : string) : option TreeEntry :=
  i ← find_entry name (tree_entries t); tree_entries t !! i.

Definition Tree_Entries (t : Tree) : list TreeEntry := tree_entries t.

Definition Tree_SetHash (t : Tree) (h : Hash) : Tree :=
  {| tree_entries := tree_entries t; tree_hash := h |}.

Definition Tree_Type (t : Tree) : ObjectType := TreeObject.

(** *** What the tree promises *)

Definition entry_names (t : Tree) : list string := te_name <$> tree_entries t.

(** Sorted ascending by name, no name twice. *)
Definition tree_sorted (t : Tree) : Prop :=
  StronglySorted String.le (entry_names t) /\ NoDup (entry_names t).

(** A run of [AddEntry] calls, stopping at the first error. *)
Fixpoint Tree_AddEntries (t : Tree) (es : list TreeEntry) : result Tree :=
  match es with
  | [] => Ok t
  | e :: es' => t' ← Tree_AddEntry t e; Tree_AddEntries t' es'
  end.

(** The trees a client of the package can hold: the fields are private,
    so every tree starts at [NewTree] and changes through the methods. *)
Inductive tree_reachable : Tree -> Prop :=
| reach_NewTree : tree_reachable NewTree
| reach_AddEntry t e t' :
    tree_reachable t -> Tree_AddEntry t e = Ok t' -> tree_reachable t'
| reach_RemoveEntry t name :
    tree_reachable t -> tree_reachable (Tree_RemoveEntry t name).1
| reach_SetHash t h :
    tree_reachable t -> tree_reachable (Tree_SetHash t h).

(** ** UTF-8 ([unicode/utf8]) *)

Module UTF8.

Definition RuneError : Z := 0xFFFD.
Definition RuneSelf : Z := 0x80.

Definition in_range (lo hi : Z) (c : ascii) : bool :=
  (lo <=? byte_val c) && (byte_val c <=? hi).

(** Continuation byte payload, [b & 0x3F]. *)
Definition cont (c : ascii) : Z := Z.land (byte_val c) 0x3F.

(** [DecodeRune]: the rune at the head of [p] and its width; an invalid
    or short encoding is [(RuneError, 1)], the empty input
    [(RuneError, 0)]. *)
Definition DecodeRune (p : bytes) : Z * nat :=
  match p with
  | [] => (RuneError, 0%nat)
  | p0 :: t =>
      let b0 := byte_val p0 in
      if b0 <? 0x80 then (b0, 1%nat)
      else if (b0 <? 0xC2) || (0xF4 <? b0) then (RuneError, 1%nat)
      else
        (* width and the accepted range of the second byte *)
        let sz := if b0 <? 0xE0 then 2%nat
                  else if b0 <? 0xF0 then 3%nat else 4%nat in
        let lo := if b0 =? 0xE0 then 0xA0
                  else if b0 =? 0xF0 then 0x90 else 0x80 in
        let hi := if b0 =? 0xED then 0x9F
                  else if b0 =? 0xF4 then 0x8F else 0xBF in
        match t with
        | [] => (RuneError, 1%nat)
        | b1 :: t1 =>
            if (length p <? sz)%nat then (RuneError, 1%nat)
            else if negb (in_range lo hi b1) then (RuneError, 1%nat)
            else if (sz <=? 2)%nat then
              (Z.lor (Z.shiftl (Z.land b0 0x1F) 6) (cont b1), 2%nat)
            else
              match t1 with
              | [] => (RuneError, 1%nat)
              | b2 :: t2 =>
                  if negb (in_range 0x80 0xBF b2) then (RuneError, 1%nat)
                  else if (sz <=? 3)%nat then
                    (Z.lor (Z.lor (Z.shiftl (Z.land b0 0x0F) 12)
                                  (Z.shiftl (cont b1) 6)) (cont b2), 3%nat)
                  else
                    match t2 with
                    | [] => (RuneError, 1%nat)
                    | b3 :: _ =>
                        if negb (in_range 0x80 0xBF b3)
                        then (RuneError, 1%nat)
                        else
                          (Z.lor (Z.lor (Z.lor
                             (Z.shiftl (Z.land b0 0x07) 18)
                             (Z.shiftl (cont b1) 12))
                             (Z.shiftl (cont b2) 6)) (cont b3), 4%nat)
                    end
              end
        end
  end.

(** [AppendRune] / [EncodeRune]. *)
Definition EncodeRune (r : Z) : bytes :=
  let tail k := byte_of (Z.lor 0x80 (Z.land (Z.shiftr r k) 0x3F)) in
  if (0 <=? r) && (r <=? 0x7F) then [byte_of r]
  else if (0 <=? r) && (r <=? 0x7FF) then
    [byte_of (Z.lor 0xC0 (Z.shiftr r 6)); tail 0]
  else if (r <? 0) || (0x10FFFF <? r) || ((0xD800 <=? r) && (r <=? 0xDFFF))
  then [byte_of 0xEF; byte_of 0xBF; byte_of 0xBD]
  else if r <=? 0xFFFF then
    [byte_of (Z.lor 0xE0 (Z.shiftr r 12)); tail 6; tail 0]
  else
    [byte_of (Z.lor 0xF0 (Z.shiftr r 18)); tail 12; tail 6; tail 0].

(** [RuneStart]: not a continuation byte. *)
Definition RuneStart (c : ascii) : bool :=
  negb (Z.land (byte_val c) 0xC0 =? 0x80).

(** [DecodeLastRune]. *)
Definition DecodeLastRune (p : bytes) : Z * nat :=
  match rev p with
  | [] => (RuneError, 0%nat)
  | last :: _ =>
      if byte_val last <? 0x80 then (byte_val last, 1%nat)
      else
        let end_ := length p in
        let lim := (end_ - 4)%nat in
        (* walk back from [end_ - 2] to [lim] looking for a start byte *)
        let fix back (k : nat) (start : Z) : Z :=
          match k with
          | O => start
          | S k' =>
              if start <? Z.of_nat lim then start
              else
                match p !! Z.to_nat start with
                | Some c => if RuneStart c then start else back k' (start - 1)
                | None => start
                end
          end in
        let start := back 4%nat (Z.of_nat end_ - 2) in
        let start := Z.to_nat (if start <? 0 then 0 else start) in
        let '(r, size) := DecodeRune (drop start p) in
        if negb (start + size =? end_)%nat then (RuneError, 1%nat)
        else (r, size)
  end.

(** [unicode.IsSpace]. *)
Definition IsSpace (r : Z) : bool :=
  ((0x09 <=? r) && (r <=? 0x0D)) || (r =? 0x20) || (r =? 0x85)
  || (r =? 0xA0) || (r =? 0x1680) || ((0x2000 <=? r) && (r <=? 0x200A))
  || (r =? 0x2028) || (r =? 0x2029) || (r =? 0x202F) || (r =? 0x205F)
  || (r =? 0x3000).

End UTF8.

(** ** [strings.TrimSpace] and [bytes.TrimSpace]

    Both run the same code: drop white space at the front, then at the
    back.  ASCII bytes are tested against the table [asciiSpace]; from the
    first byte at or above [0x80] on, the ends are decoded rune by rune
    and tested with [unicode.IsSpace]. *)

Definition asciiSpace (c : ascii) : bool :=
  let b := byte_val c in
  (b =? 9) || (b =? 10) || (b =? 11) || (b =? 12) || (b =? 13) || (b =? 32).

(** [TrimLeftFunc(s, unicode.IsSpace)]. *)
Fixpoint TrimLeftSpace (fuel : nat) (s : bytes) : bytes :=
  match fuel with
  | O => s
  | S f =>
      match s with
      | [] => []
      | _ =>
          let '(r, size) := UTF8.DecodeRune s in
          if UTF8.IsSpace r then TrimLeftSpace f (drop size s) else s
      end
  end.

(** [TrimRightFunc(s, unicode.IsSpace)]. *)
Fixpoint TrimRightSpace (fuel : nat) (s : bytes) : bytes :=
  match fuel with
  | O => s
  | S f =>
      match s with
      | [] => []
      | _ =>
          let '(r, size) := UTF8.DecodeLastRune s in
          if UTF8.IsSpace r then TrimRightSpace f (take (length s - size) s)
          else s
      end
  end.

(** The second loop of [TrimSpace]: [s] is already trimmed on the left. *)
Fixpoint trim_stop (fuel : nat) (s : bytes) : bytes :=
  match fuel with
  | O => s
  | S f =>
      match rev s with
      | [] => []
      | c :: _ =>
          if 0x80 <=? byte_val c then TrimRightSpace (length s) s
          else if asciiSpace c then trim_stop f (take (length s - 1) s)
          else s
      end
  end.

(** The first loop of [TrimSpace]. *)
Fixpoint trim_start (s : bytes) : bytes :=
  match s with
  | [] => []
  | c :: s' =>
      if 0x80 <=? byte_val c then
        TrimRightSpace (length s) (TrimLeftSpace (length s) s)
      else if asciiSpace c then trim_start s'
      else trim_stop (length s) s
  end.

Definition bytes_TrimSpace (s : bytes) : bytes := trim_start s.
Definition strings_TrimSpace (s : string) : string := str (trim_start (bs s)).

(** ** [encoding/json]

    The encoder and the decoder of the library, for the types this
    repository passes to them.  A document is held as a tree whose string
    and number leaves keep their literal text, the way the decoder hands
    literals on ([Time.UnmarshalJSON] receives the text, a string field
    the unquoted text). *)

Module JSON.

Inductive value : Type :=
| Null
| Bool (b : bool)
| Num (lit : bytes)                    (* the digits as written *)
| Str (lit : bytes)                    (* the text between the quotes *)
| Arr (vs : list value)
| Obj (ms : list (bytes * value)).     (* keys: text between the quotes *)

(** *** Encoding *)

Definition hex (n : Z) : ascii := hex_digit n.

(** [appendString]: the text between the quotes for the Go string
    [s].  [Marshal] and [MarshalIndent] escape [<], [>] and [&]
    ([escapeHTML]); the encoders of the object model switch that off. *)
Fixpoint quote_go (escapeHTML : bool) (fuel : nat) (s : bytes) : bytes :=
  match fuel with
  | O => []
  | S f =>
      match s with
      | [] => []
      | c :: s' =>
          let b := byte_val c in
          if b <? 0x80 then
            (if (b =? 0x5C) || (b =? 0x22) then [BSL; c]
             else if b =? 8 then bs "\b"
             else if b =? 12 then bs "\f"
             else if b =? 10 then bs "\n"
             else if b =? 13 then bs "\r"
             else if b =? 9 then bs "\t"
             else if (b <? 0x20)
                     || (escapeHTML && ((b =? 0x3C) || (b =? 0x3E) || (b =? 0x26)))
             then bs "\u00" ++ [hex (Z.shiftr b 4); hex (Z.land b 0xF)]
             else [c])
            ++ quote_go escapeHTML f s'
          else
            let '(r, size) := UTF8.DecodeRune (take 4 s) in
            if (r =? UTF8.RuneError) && (size =? 1)%nat then
              bs ("\u" +:+ "fffd") ++ quote_go escapeHTML f (drop size s)
            else if (r =? 0x2028) || (r =? 0x2029) then
              bs "\u202" ++ [hex (Z.land r 0xF)]
              ++ quote_go escapeHTML f (drop size s)
            else take size s ++ quote_go escapeHTML f (drop size s)
      end
  end.

Definition quote (s : bytes) : bytes := quote_go false (length s) s.
Definition quote_html (s : bytes) : bytes := quote_go true (length s) s.

(** A Go string as a JSON string. *)
Definition string_value (s : string) : value := Str (quote (bs s)).
Definition string_value_html (s : string) : value := Str (quote_html (bs s)).

Fixpoint intercalate (sep : bytes) (parts : list bytes) : bytes :=
  match parts with
  | [] => []
  | [p] => p
  | p :: ps => p ++ sep ++ intercalate sep ps
  end.

(** Compact text of a document: no white space. *)
Fixpoint render (v : value) : bytes :=
  match v with
  | Null => bs "null"
  | Bool true => bs "true"
  | Bool false => bs "false"
  | Num lit => lit
  | Str lit => [DQ] ++ lit ++ [DQ]
  | Arr vs => bs "[" ++ intercalate (bs ",") (map render vs) ++ bs "]"
  | Obj ms =>
      bs "{" ++
      intercalate (bs ",")
        (map (fun m => [DQ] ++ fst m ++ [DQ] ++ bs ":"
                       ++ render (snd m)) ms)
      ++ bs "}"
  end.

(** [Encoder.Encode]: the compact text and a newline. *)
Definition Encode (v : value) : bytes := render v ++ [byte_of 10].

(** [Indent] with an empty prefix and two spaces per level, as
    [MarshalIndent(v, "", "  ")] applies it to the compact text. *)
Definition newline (depth : nat) : bytes :=
  byte_of 10 :: concat (repeat (bs "  ") depth).

Fixpoint render_indent (depth : nat) (v : value) : bytes :=
  match v with
  | Arr [] => bs "[]"
  | Obj [] => bs "{}"
  | Arr vs =>
      bs "[" ++ newline (S depth)
      ++ intercalate (bs "," ++ newline (S depth))
           (map (render_indent (S depth)) vs)
      ++ newline depth ++ bs "]"
  | Obj ms =>
      bs "{" ++ newline (S depth)
      ++ intercalate (bs "," ++ newline (S depth))
           (map (fun m => [DQ] ++ fst m ++ [DQ] ++ bs ": "
                          ++ render_indent (S depth) (snd m)) ms)
      ++ newline depth ++ bs "}"
  | _ => render v
  end.

(** *** Scanning *)

Definition is_ws (c : ascii) : bool :=
  let b := byte_val c in (b =? 32) || (b =? 9) || (b =? 13) || (b =? 10).

Fixpoint skip_ws (s : bytes) : bytes :=
  match s with
  | c :: s' => if is_ws c then skip_ws s' else s
  | [] => []
  end.

Definition is_hex (c : ascii) : bool :=
  let b := byte_val c in
  ((48 <=? b) && (b <=? 57)) || ((97 <=? b) && (b <=? 102))
  || ((65 <=? b) && (b <=? 70)).

(** The text of a string literal up to its closing quote, and what
    follows the quote.  [acc] holds the text read so far, reversed. *)
Fixpoint scan_string (s : bytes) (acc : bytes) : option (bytes * bytes) :=
  match s with
  | [] => None
  | c :: s' =>
      let b := byte_val c in
      if b =? 0x22 then Some (rev acc, s')
      else if b =? 0x5C then
        match s' with
        | e :: s'' =>
            let eb := byte_val e in
            if (eb =? 0x62) || (eb =? 0x66) || (eb =? 0x6E) || (eb =? 0x72)
               || (eb =? 0x74) || (eb =? 0x5C) || (eb =? 0x2F) || (eb =? 0x22)
            then scan_string s'' (e :: c :: acc)
            else if eb =? 0x75 then
              match s'' with
              | h1 :: h2 :: h3 :: h4 :: s4 =>
                  if is_hex h1 && is_hex h2 && is_hex h3 && is_hex h4
                  then scan_string s4 (h4 :: h3 :: h2 :: h1 :: e :: c :: acc)
                  else None
              | _ => None
              end
            else None
        | [] => None
        end
      else if b <? 0x20 then None
      else scan_string s' (c :: acc)
  end.

Fixpoint span_digits (s : bytes) : bytes * bytes :=
  match s with
  | c :: s' =>
      if is_digit c then let '(d, r) := span_digits s' in (c :: d, r)
      else ([], s)
  | [] => ([], [])
  end.

(** The text of a number and what follows it. *)
Definition scan_number (s : bytes) : option (bytes * bytes) :=
  let '(sign, s1) :=
    match s with
    | c :: s' => if byte_val c =? 0x2D then ([c], s') else ([], s)
    | [] => ([], s)
    end in
  match s1 with
  | [] => None
  | c :: s2 =>
      if negb (is_digit c) then None
      else
        let '(int, s3) :=
          if byte_val c =? 48 then ([c], s2) else span_digits s1 in
        let frac :=
          match s3 with
          | dot :: s4 =>
              if byte_val dot =? 0x2E then
                match span_digits s4 with
                | ([], _) => None
                | (d, s5) => Some (dot :: d, s5)
                end
              else Some ([], s3)
          | [] => Some ([], s3)
          end in
        match frac with
        | None => None
        | Some (fr, s5) =>
            let exp :=
              match s5 with
              | e :: s6 =>
                  if (byte_val e =? 0x65) || (byte_val e =? 0x45) then
                    let '(esign, s7) :=
                      match s6 with
                      | g :: s6' =>
                          if (byte_val g =? 0x2B) || (byte_val g =? 0x2D)
                          then ([g], s6') else ([], s6)
                      | [] => ([], s6)
                      end in
                    match span_digits s7 with
                    | ([], _) => None
                    | (d, s8) => Some (e :: esign ++ d, s8)
                    end
                  else Some ([], s5)
              | [] => Some ([], s5)
              end in
            match exp with
            | None => None
            | Some (ex, s8) => Some (sign ++ int ++ fr ++ ex, s8)
            end
        end
  end.

Definition strip_prefix (p s : bytes) : option bytes :=
  if bool_decide (take (length p) s = p) then Some (drop (length p) s)
  else None.

(** The scanner gives up beyond this many open arrays and objects. *)
Definition maxNestingDepth : Z := 10000.

(** One value at the head of [s], after optional white space.  Every
    call uses one unit of [fuel]; a text of [n] bytes needs at most
    [n + 1]. *)
Fixpoint parse_value (fuel : nat) (depth : Z) (s : bytes)
    : option (value * bytes) :=
  match fuel with
  | O => None
  | S f =>
      match skip_ws s with
      | [] => None
      | c :: r =>
          let b := byte_val c in
          if b =? 0x7B then
            if maxNestingDepth <=? depth then None
            else
              match skip_ws r with
              | c' :: r' =>
                  if byte_val c' =? 0x7D then Some (Obj [], r')
                  else parse_members f (depth + 1) (c' :: r') []
              | [] => None
              end
          else if b =? 0x5B then
            if maxNestingDepth <=? depth then None
            else
              match skip_ws r with
              | c' :: r' =>
                  if byte_val c' =? 0x5D then Some (Arr [], r')
                  else parse_elements f (depth + 1) (c' :: r') []
              | [] => None
              end
          else if b =? 0x22 then
            '(lit, r') ← scan_string r []; Some (Str lit, r')
          else if (b =? 0x2D) || is_digit c then
            '(lit, r') ← scan_number (c :: r); Some (Num lit, r')
          else if b =? 0x74 then
            r' ← strip_prefix (bs "true") (c :: r); Some (Bool true, r')
          else if b =? 0x66 then
            r' ← strip_prefix (bs "false") (c :: r); Some (Bool false, r')
          else if b =? 0x6E then
            r' ← strip_prefix (bs "null") (c :: r); Some (Null, r')
          else None
      end
  end
with parse_elements (fuel : nat) (depth : Z) (s : bytes) (acc : list value)
    : option (value * bytes) :=
  match fuel with
  | O => None
  | S f =>
      '(v, r) ← parse_value f depth s;
      match skip_ws r with
      | c :: r' =>
          if byte_val c =? 0x2C then parse_elements f depth r' (v :: acc)
          else if byte_val c =? 0x5D then Some (Arr (rev (v :: acc)), r')
          else None
      | [] => None
      end
  end
with parse_members (fuel : nat) (depth : Z) (s : bytes)
       (acc : list (bytes * value)) : option (value * bytes) :=
  match fuel with
  | O => None
  | S f =>
      match skip_ws s with
      | q :: r0 =>
          if negb (byte_val q =? 0x22) then None
          else
            '(key, r1) ← scan_string r0 [];
            match skip_ws r1 with
            | colon :: r2 =>
                if negb (byte_val colon =? 0x3A) then None
                else
                  '(v, r3) ← parse_value f depth r2;
                  match skip_ws r3 with
                  | c :: r4 =>
                      if byte_val c =? 0x2C
                      then parse_members f depth r4 ((key, v) :: acc)
                      else if byte_val c =? 0x7D
                      then Some (Obj (rev ((key, v) :: acc)), r4)
                      else None
                  | [] => None
                  end
            | [] => None
            end
      | [] => None
      end
  end.

(** [checkValid] and the decoder's walk: exactly one value, white space
    around it allowed. *)
Definition parse (data : bytes) : option value :=
  '(v, r) ← parse_value (S (length data)) 0 data;
  match skip_ws r with
  | [] => Some v
  | _ => None
  end.

(** *** Decoding literals *)

Definition hexval (c : ascii) : option Z :=
  let b := byte_val c in
  if (48 <=? b) && (b <=? 57) then Some (b - 48)
  else if (97 <=? b) && (b <=? 102) then Some (b - 97 + 10)
  else if (65 <=? b) && (b <=? 70) then Some (b - 65 + 10)
  else None.

(** [getu4]: the code unit of a [\uXXXX] escape at the head of [s],
    [-1] when there is none. *)
Definition getu4 (s : bytes) : Z :=
  match s with
  | b0 :: b1 :: h1 :: h2 :: h3 :: h4 :: _ =>
      if (byte_val b0 =? 0x5C) && (byte_val b1 =? 0x75) then
        match hexval h1, hexval h2, hexval h3, hexval h4 with
        | Some a, Some b, Some c, Some d =>
            ((a * 16 + b) * 16 + c) * 16 + d
        | _, _, _, _ => -1
        end
      else -1
  | _ => -1
  end.

(** [utf16.IsSurrogate] and [utf16.DecodeRune]. *)
Definition IsSurrogate (r : Z) : bool := (0xD800 <=? r) && (r <? 0xE000).
Definition utf16_DecodeRune (r1 r2 : Z) : Z :=
  if (0xD800 <=? r1) && (r1 <? 0xDC00) && (0xDC00 <=? r2) && (r2 <? 0xE000)
  then Z.lor (Z.shiftl (r1 - 0xD800) 10) (r2 - 0xDC00) + 0x10000
  else 0xFFFD.

(** [unquoteBytes], on the text between the quotes.  The library first
    looks for the longest prefix it can return as it is; the loop below
    copies that prefix byte for byte, to the same effect. *)
Fixpoint unquote_go (fuel : nat) (s : bytes) : option bytes :=
  match fuel with
  | O => match s with [] => Some [] | _ => None end
  | S f =>
      match s with
      | [] => Some []
      | c :: s' =>
          let b := byte_val c in
          if b =? 0x5C then
            match s' with
            | [] => None
            | e :: s'' =>
                let eb := byte_val e in
                if (eb =? 0x22) || (eb =? 0x5C) || (eb =? 0x2F) || (eb =? 0x27)
                then (e ::.) <$> unquote_go f s''
                else if eb =? 0x62 then (byte_of 8 ::.) <$> unquote_go f s''
                else if eb =? 0x66 then (byte_of 12 ::.) <$> unquote_go f s''
                else if eb =? 0x6E then (byte_of 10 ::.) <$> unquote_go f s''
                else if eb =? 0x72 then (byte_of 13 ::.) <$> unquote_go f s''
                else if eb =? 0x74 then (byte_of 9 ::.) <$> unquote_go f s''
                else if eb =? 0x75 then
                  let rr := getu4 s in
                  if rr <? 0 then None
                  else
                    let s6 := drop 6 s in
                    if IsSurrogate rr then
                      let dec := utf16_DecodeRune rr (getu4 s6) in
                      if negb (dec =? 0xFFFD) then
                        (UTF8.EncodeRune dec ++.) <$> unquote_go f (drop 6 s6)
                      else
                        (UTF8.EncodeRune 0xFFFD ++.) <$> unquote_go f s6
                    else (UTF8.EncodeRune rr ++.) <$> unquote_go f s6
                else None
            end
          else if (b =? 0x22) || (b <? 0x20) then None
          else if b <? 0x80 then (c ::.) <$> unquote_go f s'
          else
            let '(rr, size) := UTF8.DecodeRune s in
            (UTF8.EncodeRune rr ++.) <$> unquote_go f (drop size s)
      end
  end.

Definition unquote (lit : bytes) : option bytes := unquote_go (length lit) lit.

(** [strconv.ParseInt(lit, 10, 64)] on the text of a JSON number: an
    optional minus sign and digits, nothing else, within [int64]. *)
Definition digits_value (d : bytes) : Z :=
  fold_left (fun acc c => acc * 10 + (byte_val c - 48)) d 0.

Definition ParseInt (lit : bytes) : option Z :=
  let '(neg, d) :=
    match lit with
    | c :: d => if byte_val c =? 0x2D then (true, d) else (false, lit)
    | [] => (false, lit)
    end in
  match d with
  | [] => None
  | _ =>
      if forallb is_digit d then
        let n := if neg then - digits_value d else digits_value d in
        if (- 2 ^ 63 <=? n) && (n <? 2 ^ 63) then Some n else None
      else None
  end.

(** [foldName]: what two keys must share to name the same field.  ASCII
    letters go to upper case; U+017F and U+212A go to [S] and [K], the
    least runes they fold to.  Every other rune outside ASCII is kept:
    it folds to a rune outside ASCII, so never meets a field name of
    this repository, all of which are ASCII. *)
Fixpoint foldName_go (fuel : nat) (s : bytes) : bytes :=
  match fuel with
  | O => []
  | S f =>
      match s with
      | [] => []
      | c :: s' =>
          let b := byte_val c in
          if b <? 0x80 then
            (if (97 <=? b) && (b <=? 122) then byte_of (b - 32) else c)
            :: foldName_go f s'
          else
            let '(r, n) := UTF8.DecodeRune s in
            let r' := if r =? 0x17F then 0x53
                      else if r =? 0x212A then 0x4B else r in
            UTF8.EncodeRune r' ++ foldName_go f (drop n s)
      end
  end.

Definition foldName (s : bytes) : bytes := foldName_go (length s) s.

(** Does the member key [key] (already unquoted) select the field
    tagged [name]? *)
Definition field_is (key : bytes) (name : string) : bool :=
  bool_decide (foldName key = foldName (bs name)).

(** *** Decoding into Go values

    Every decoder takes the value the target holds and returns the
    value it holds afterwards: [null] leaves the target alone, a
    document of the wrong kind is an error. *)

Definition type_error {A} (what : string) : result A :=
  Err ("json: cannot unmarshal into Go value of type " +:+ what).

Definition decode_string (v : value) (cur : string) : result string :=
  match v with
  | Null => Ok cur
  | Str lit =>
      match unquote lit with
      | Some s => Ok (str s)
      | None => Err "JSON decoder out of sync - data changing underfoot?"
      end
  | _ => type_error "string"
  end.

Definition decode_int (v : value) (cur : Z) : result Z :=
  match v with
  | Null => Ok cur
  | Num lit =>
      match ParseInt lit with
      | Some n => Ok n
      | None => type_error "int64"
      end
  | _ => type_error "int64"
  end.

(** A struct: each member of the object is handed to [field] with its
    unquoted key, in the order of the document. *)
Definition decode_struct {T} (what : string)
    (field : bytes -> value -> T -> result T) (v : value) (cur : T)
    : result T :=
  match v with
  | Null => Ok cur
  | Obj ms =>
      fold_left
        (fun acc m =>
           t ← acc;
           match unquote (fst m) with
           | Some key => field key (snd m) t
           | None => Err "JSON decoder out of sync - data changing underfoot?"
           end)
        ms (Ok cur)
  | _ => type_error what
  end.

(** A slice: [null] makes it nil, an array replaces it; the elements
    are decoded into zero values, left to right.  (The library decodes
    into the cells of a slice it has filled before, which shows only
    when a document repeats a key.) *)
Fixpoint decode_elems {T} (zero : T) (elem : value -> T -> result T)
    (vs : list value) : result (list T) :=
  match vs with
  | [] => Ok []
  | x :: vs' =>
      e ← elem x zero; l ← decode_elems zero elem vs'; Ok (e :: l)
  end.

Definition decode_slice {T} (what : string) (zero : T)
    (elem : value -> T -> result T) (v : value) (cur : list T)
    : result (list T) :=
  match v with
  | Null => Ok []
  | Arr vs => decode_elems zero elem vs
  | _ => type_error what
  end.

End JSON.

(** ** [time.Time]

    An instant (seconds since the Unix epoch and nanoseconds within the
    second) and the offset of its zone east of UTC in seconds.  The
    monotonic reading and the name of the zone are left out: nothing in
    this repository reads them. *)

Record Time := mkTime {
  t_unix : Z;
  t_nsec : Z;
  t_offset : Z
}.

(** Seconds from January 1, year 1 to the Unix epoch. *)
Definition unixToInternal : Z := 62135596800.

(** The zero [Time]: January 1, year 1, 00:00:00 UTC. *)
Definition Time_zero : Time :=
  {| t_unix := - unixToInternal; t_nsec := 0; t_offset := 0 |}.

Definition Time_IsZero (t : Time) : bool :=
  (t_unix t + unixToInternal =? 0) && (t_nsec t =? 0).

Definition Time_Unix (t : Time) : Z := t_unix t.

Definition Time_eqb (a b : Time) : bool :=
  (t_unix a =? t_unix b) && (t_nsec a =? t_nsec b) && (t_offset a =? t_offset b).

Module RFC3339.

(** Day number (days since 1970-01-01) to year, month, day of the
    proleptic Gregorian calendar, and back. *)
Definition civil_from_days (z : Z) : Z * Z * Z :=
  let z := z + 719468 in
  let era := z / 146097 in
  let doe := z - era * 146097 in
  let yoe := (doe - doe / 1460 + doe / 36524 - doe / 146096) / 365 in
  let doy := doe - (365 * yoe + yoe / 4 - yoe / 100) in
  let mp := (5 * doy + 2) / 153 in
  let d := doy - (153 * mp + 2) / 5 + 1 in
  let m := if mp <? 10 then mp + 3 else mp - 9 in
  (yoe + era * 400 + (if m <=? 2 then 1 else 0), m, d).

Definition days_from_civil (y m d : Z) : Z :=
  let y := if m <=? 2 then y - 1 else y in
  let era := y / 400 in
  let yoe := y - era * 400 in
  let doy := (153 * (if 2 <? m then m - 3 else m + 9) + 2) / 5 + d - 1 in
  let doe := yoe * 365 + yoe / 4 - yoe / 100 + doy in
  era * 146097 + doe - 719468.

Definition isLeap (year : Z) : bool :=
  (year mod 4 =? 0) && (negb (year mod 100 =? 0) || (year mod 400 =? 0)).

Definition daysIn (month year : Z) : Z :=
  if month =? 2 then (if isLeap year then 29 else 28)
  else if (month =? 4) || (month =? 6) || (month =? 9) || (month =? 11)
  then 30 else 31.

(** [appendInt(b, x, width)]: decimal, zero padded. *)
Definition appendInt (x : Z) (width : nat) : bytes :=
  let d := dec_nonneg (Z.abs x) in
  (if x <? 0 then ["-"%char] else [])
  ++ repeat "0"%char (width - length d) ++ d.

Fixpoint drop_trailing_zeros (r : bytes) : bytes :=
  match r with
  | c :: r' => if byte_val c =? 48 then drop_trailing_zeros r' else r
  | [] => []
  end.

(** [appendNano] for the layout [.999999999]. *)
Definition appendNano (nsec : Z) : bytes :=
  if nsec =? 0 then []
  else "."%char :: rev (drop_trailing_zeros (rev (appendInt nsec 9))).

(** [appendFormatRFC3339(b, true)]. *)
Definition format (t : Time) : bytes :=
  let abs := t_unix t + t_offset t in
  let '(year, month, day) := civil_from_days (abs / 86400) in
  let secs := abs mod 86400 in
  let zone := Z.quot (t_offset t) 60 in
  appendInt year 4 ++ bs "-" ++ appendInt month 2 ++ bs "-"
  ++ appendInt day 2 ++ bs "T"
  ++ appendInt (secs / 3600) 2 ++ bs ":"
  ++ appendInt (secs mod 3600 / 60) 2 ++ bs ":"
  ++ appendInt (secs mod 60) 2
  ++ appendNano (t_nsec t)
  ++ (if t_offset t =? 0 then bs "Z"
      else
        (if zone <? 0 then bs "-" else bs "+")
        ++ appendInt (Z.abs zone / 60) 2 ++ bs ":"
        ++ appendInt (Z.abs zone mod 60) 2).

Definition num2 (b : bytes) : Z :=
  match b with
  | c0 :: c1 :: _ => 10 * (byte_val c0 - 48) + (byte_val c1 - 48)
  | _ => 0
  end.

(** [appendStrictRFC3339]: the text, unless the year takes more than
    four digits or the zone hour more than two or exceeds 23. *)
Definition appendStrictRFC3339 (t : Time) : result bytes :=
  let b := format t in
  match b !! 4%nat with
  | Some c =>
      if negb (byte_val c =? 0x2D) then Err "year outside of range [0,9999]"
      else
        match last b with
        | Some z =>
            if byte_val z =? 0x5A then Ok b
            else
              match b !! (length b - 6)%nat with
              | Some c =>
                  if is_digit c || (24 <=? num2 (drop (length b - 5) b))
                  then Err "timezone hour outside of range [0,23]"
                  else Ok b
              | None => Ok b
              end
        | None => Ok b
        end
  | None => Ok b
  end.

(** The helper [parseUint] of [parseRFC3339]: the digits of [s] as a
    number within [[min, max]]. *)
Definition parseUint (s : bytes) (min max : Z) : option Z :=
  if forallb is_digit s then
    let x := JSON.digits_value s in
    if (x <? min) || (max <? x) then None else Some x
  else None.

Definition sub (s : bytes) (i j : nat) : bytes := take (j - i) (drop i s).

Definition byte_at (s : bytes) (i : nat) (c : Z) : bool :=
  match s !! i with Some x => byte_val x =? c | None => false end.

(** [parseNanoseconds]: up to nine digits after the point, scaled. *)
Definition parseNanoseconds (digits : bytes) : Z :=
  let d := take 9 digits in
  JSON.digits_value d * 10 ^ Z.of_nat (9 - length d).

(** [parseRFC3339]. *)
Definition parse (s : bytes) : option Time :=
  if (length s <? 19)%nat then None
  else
    year ← parseUint (sub s 0 4) 0 9999;
    month ← parseUint (sub s 5 7) 1 12;
    day ← parseUint (sub s 8 10) 1 (daysIn month year);
    hour ← parseUint (sub s 11 13) 0 23;
    min ← parseUint (sub s 14 16) 0 59;
    sec ← parseUint (sub s 17 19) 0 59;
    if negb (byte_at s 4 0x2D && byte_at s 7 0x2D && byte_at s 10 0x54
             && byte_at s 13 0x3A && byte_at s 16 0x3A)
    then None
    else
      let s1 := drop 19 s in
      let '(nsec, s2) :=
        match s1 with
        | dot :: c :: _ =>
            if (byte_val dot =? 0x2E) && is_digit c then
              let '(d, r) := JSON.span_digits (drop 1 s1) in
              (parseNanoseconds d, r)
            else (0, s1)
        | _ => (0, s1)
        end in
      let unix := days_from_civil year month day * 86400
                  + hour * 3600 + min * 60 + sec in
      if bool_decide (s2 = bs "Z") then
        Some {| t_unix := unix; t_nsec := nsec; t_offset := 0 |}
      else if negb (length s2 =? 6)%nat then None
      else
        hr ← parseUint (sub s2 1 3) 0 23;
        mm ← parseUint (sub s2 4 6) 0 59;
        if negb ((byte_at s2 0 0x2D || byte_at s2 0 0x2B) && byte_at s2 3 0x3A)
        then None
        else
          let zoneOffset :=
            (if byte_at s2 0 0x2D then -1 else 1) * ((hr * 60 + mm) * 60) in
          Some {| t_unix := unix - zoneOffset; t_nsec := nsec;
                  t_offset := zoneOffset |}.

End RFC3339.

(** [Time.MarshalJSON]: the RFC 3339 text between quotes. *)
Definition Time_MarshalJSON (t : Time) : result JSON.value :=
  b ← wrap "Time.MarshalJSON" (RFC3339.appendStrictRFC3339 t); Ok (JSON.Str b).

(** [Time.UnmarshalJSON], [null] left to the caller.  When the strict
    parser fails the library retries with [time.Parse] and the layout
    [RFC3339], which admits a few spellings outside RFC 3339 (a one-digit
    hour, a comma before the fraction); the model rejects those. *)
Definition Time_UnmarshalJSON (v : JSON.value) : result Time :=
  match v with
  | JSON.Str lit =>
      match RFC3339.parse lit with
      | Some t => Ok t
      | None => Err "parsing time: cannot parse as RFC 3339"
      end
  | _ => Err "Time.UnmarshalJSON: input is not a JSON string"
  end.

Definition decode_Time (v : JSON.value) (cur : Time) : result Time :=
  match v with
  | JSON.Null => Ok cur
  | _ => Time_UnmarshalJSON v
  end.

(** ** [path/filepath]

    The functions depend on the operating system through the separator
    they write and the bytes they read as separators.  Volume names
    (drive letters, UNC prefixes) are outside the model: every path is
    taken to have none, as the paths of this repository are when they are
    relative to the repository root. *)

Record Platform := mkPlatform {
  Separator : ascii;
  IsPathSeparator : ascii -> bool
}.

Definition unix : Platform :=
  {| Separator := "/"%char;
     IsPathSeparator := fun c => byte_val c =? 0x2F |}.

Definition windows : Platform :=
  {| Separator := BSL;
     IsPathSeparator := fun c => (byte_val c =? 0x5C) || (byte_val c =? 0x2F) |}.

Module Filepath.
Section WithPlatform.
Variable os : Platform.

Definition replace_byte (old new : ascii) (s : bytes) : bytes :=
  map (fun c => if Ascii.eqb c old then new else c) s.

Definition FromSlash (path : bytes) : bytes :=
  if Ascii.eqb (Separator os) "/"%char then path
  else replace_byte "/"%char (Separator os) path.

Definition ToSlash (path : bytes) : bytes :=
  if Ascii.eqb (Separator os) "/"%char then path
  else replace_byte (Separator os) "/"%char path.

Definition is_sep_at (p : bytes) : bool :=
  match p with
  | [] => true           (* the end of the path closes an element too *)
  | c :: _ => IsPathSeparator os c
  end.

(** The [..] case of [Clean]: drop bytes from the end of the buffer
    until a separator has been dropped or the floor [dotdot] is
    reached.  The buffer is held newest byte first. *)
Fixpoint backtrack (rbuf : bytes) (dotdot : nat) : bytes :=
  match rbuf with
  | [] => []
  | c :: rbuf' =>
      if (dotdot <? length rbuf')%nat && negb (IsPathSeparator os c)
      then backtrack rbuf' dotdot
      else rbuf'
  end.

Fixpoint span_element (p : bytes) : bytes * bytes :=
  match p with
  | c :: p' =>
      if IsPathSeparator os c then ([], p)
      else let '(e, r) := span_element p' in (c :: e, r)
  | [] => ([], [])
  end.

(** The loop of [Clean] over the unread part [p] of the path. *)
Fixpoint clean_loop (fuel : nat) (rooted : bool) (p rbuf : bytes)
    (dotdot : nat) : bytes :=
  match fuel with
  | O => rbuf
  | S f =>
      match p with
      | [] => rbuf
      | c :: p1 =>
          if IsPathSeparator os c then
            clean_loop f rooted p1 rbuf dotdot
          else if (byte_val c =? 0x2E) && is_sep_at p1 then
            clean_loop f rooted p1 rbuf dotdot
          else if (byte_val c =? 0x2E)
                  && match p1 with
                     | c1 :: p2 => (byte_val c1 =? 0x2E) && is_sep_at p2
                     | [] => false
                     end
          then
            let p2 := drop 2 p in
            if (dotdot <? length rbuf)%nat then
              clean_loop f rooted p2 (backtrack rbuf dotdot) dotdot
            else if negb rooted then
              let rbuf1 :=
                if (0 <? length rbuf)%nat then Separator os :: rbuf
                else rbuf in
              let rbuf2 := "."%char :: "."%char :: rbuf1 in
              clean_loop f rooted p2 rbuf2 (length rbuf2)
            else clean_loop f rooted p2 rbuf dotdot
          else
            let w := length rbuf in
            let rbuf1 :=
              if (rooted && negb (w =? 1)%nat) || (negb rooted && negb (w =? 0)%nat)
              then Separator os :: rbuf else rbuf in
            let '(elem, rest) := span_element p in
            clean_loop f rooted rest (rev elem ++ rbuf1) dotdot
      end
  end.

Definition Clean (path : bytes) : bytes :=
  match path with
  | [] => bs "."
  | c :: p1 =>
      let rooted := IsPathSeparator os c in
      let out :=
        if rooted
        then clean_loop (length path) rooted p1 [Separator os] 1
        else clean_loop (length path) rooted path [] 0 in
      FromSlash (match out with [] => bs "." | _ => rev out end)
  end.

(** [Join]: the non-empty elements from the first one on, separated,
    then cleaned. *)
Fixpoint Join (elem : list bytes) : bytes :=
  match elem with
  | [] => []
  | [] :: elem' => Join elem'
  | _ :: _ => Clean (JSON.intercalate [Separator os] elem)
  end.

End WithPlatform.
End Filepath.

(** ** [types.go]: signatures *)

Record Signature := mkSignature {
  sig_name : string;
  sig_email : string;
  sig_when : Time
}.

Definition NewSignature (name email : string) (when : Time) : result Signature :=
  if (name =? "")%string then Err "signature name cannot be empty"
  else if (email =? "")%string then Err "signature email cannot be empty"
  else if Time_IsZero when then Err "signature time cannot be zero"
  else Ok {| sig_name := name; sig_email := email; sig_when := when |}.

Definition Signature_Time (s : Signature) : Time := sig_when s.

Definition Signature_Validate (s : Signature) : result unit :=
  if (sig_name s =? "")%string then Err "signature name cannot be empty"
  else if (sig_email s =? "")%string then Err "signature email cannot be empty"
  else if Time_IsZero (sig_when s) then Err "signature time cannot be zero"
  else Ok tt.

(** [Signature] has no exported field: the encoder writes it as the
    empty object and the decoder stores nothing into it.  The same holds
    for [TreeEntry]. *)
Definition encode_Signature (s : Signature) : JSON.value := JSON.Obj [].
Definition encode_TreeEntry (e : TreeEntry) : JSON.value := JSON.Obj [].

Definition decode_TreeEntry (v : JSON.value) (cur : TreeEntry) : result TreeEntry :=
  JSON.decode_struct "objects.TreeEntry" (fun _ _ t => Ok t) v cur.

Definition TreeEntry_zero : TreeEntry :=
  {| te_mode := ""; te_name := ""; te_hash := ""; te_objType := "" |}.

(** The header and the payload of every object but the blob:
    [bytes.TrimSpace] of what [Encoder.Encode] wrote, behind
    ["<type> <len>\0"]. *)
Definition with_header (ty : ObjectType) (doc : JSON.value) : bytes :=
  let data := bytes_TrimSpace (JSON.Encode doc) in
  let header := Sprintf_s_d ty (Z.of_nat (length data)) in
  (bs header ++ [NUL]) ++ data.

(** Index of the first zero byte. *)
Fixpoint index_NUL (data : bytes) : option nat :=
  match data with
  | [] => None
  | b :: data' => if byte_val b =? 0 then Some O else S <$> index_NUL data'
  end.

(** [json.Unmarshal(data, &v)], [v] holding [zero]. *)
Definition Unmarshal {T} (decode : JSON.value -> T -> result T) (data : bytes)
    (zero : T) : result T :=
  match JSON.parse data with
  | None => Err "invalid character"
  | Some doc => decode doc zero
  end.

(** ** [tree.go]: wire format *)

Definition Tree_Serialize (t : Tree) : result bytes :=
  if (length (tree_entries t) =? 0)%nat then Err "tree cannot be empty"
  else
    let st := JSON.Obj [(bs "type", JSON.string_value TreeObject);
                        (bs "entries",
                         JSON.Arr (map encode_TreeEntry (tree_entries t)))] in
    Ok (with_header (Tree_Type t) st).

(** The anonymous struct [DeserializeTree] decodes into. *)
Record treeJSON := mkTreeJSON {
  st_Type : ObjectType;
  st_Entries : list TreeEntry
}.

Definition decode_treeJSON : JSON.value -> treeJSON -> result treeJSON :=
  JSON.decode_struct "struct"
    (fun key v st =>
       if JSON.field_is key "type" then
         ty ← JSON.decode_string v (st_Type st);
         Ok {| st_Type := ty; st_Entries := st_Entries st |}
       else if JSON.field_is key "entries" then
         es ← JSON.decode_slice "[]objects.TreeEntry" TreeEntry_zero
                decode_TreeEntry v (st_Entries st);
         Ok {| st_Type := st_Type st; st_Entries := es |}
       else Ok st).

Definition DeserializeTree (data : bytes) : result Tree :=
  match index_NUL data with
  | Some i =>
      st ← wrap "failed to deserialize tree"
             (Unmarshal decode_treeJSON (drop (S i) data)
                {| st_Type := ""; st_Entries := [] |});
      if negb (st_Type st =? TreeObject)%string then
        Err ("invalid object type: expected tree, got " +:+ st_Type st)
      else
        wrap "invalid tree entry during deserialization"
          (Tree_AddEntries NewTree (st_Entries st))
  | None => Err "malformed tree data: no null byte separator"
  end.

(** ** [commit.go] *)

Record Commit := mkCommit {
  commit_tree : Hash;
  commit_parents : list Hash;
  commit_author : Signature;
  commit_committer : Signature;
  commit_message : string;
  commit_hash : Hash
}.

Definition NewCommit (tree : Hash) (parents : list Hash)
    (author committer : Signature) (message : string) : result Commit :=
  if Hash_IsEmpty tree then Err "commit tree cannot be empty"
  else
    _ ← wrap "invalid author" (Signature_Validate author);
    _ ← wrap "invalid committer" (Signature_Validate committer);
    if (strings_TrimSpace message =? "")%string
    then Err "commit message cannot be empty"
    else Ok {| commit_tree := tree; commit_parents := parents;
               commit_author := author; commit_committer := committer;
               commit_message := strings_TrimSpace message;
               commit_hash := "" |}.

Definition Commit_IsMerge (c : Commit) : bool := (2 <=? length (commit_parents c))%nat.
Definition Commit_IsRoot (c : Commit) : bool := (length (commit_parents c) =? 0)%nat.
Definition Commit_Type (c : Commit) : ObjectType := CommitObject.
Definition Commit_SetHash (c : Commit) (h : Hash) : Commit :=
  {| commit_tree := commit_tree c; commit_parents := commit_parents c;
     commit_author := commit_author c; commit_committer := commit_committer c;
     commit_message := commit_message c; commit_hash := h |}.

Record signatureJSON := mkSignatureJSON {
  sj_Name : string;
  sj_Email : string;
  sj_When : Time
}.

Record commitJSON := mkCommitJSON {
  cj_Type : ObjectType;
  cj_Tree : Hash;
  cj_Parents : list Hash;
  cj_Author : signatureJSON;
  cj_Committer : signatureJSON;
  cj_Message : string;
  cj_Timestamp : Z
}.

Definition toJSONSignature (s : Signature) : signatureJSON :=
  {| sj_Name := sig_name s; sj_Email := sig_email s; sj_When := sig_when s |}.

Definition fromJSONSignature (sj : signatureJSON) : result Signature :=
  NewSignature (sj_Name sj) (sj_Email sj) (sj_When sj).

Definition encode_signatureJSON (sj : signatureJSON) : result JSON.value :=
  when ← Time_MarshalJSON (sj_When sj);
  Ok (JSON.Obj [(bs "name", JSON.string_value (sj_Name sj));
                (bs "email", JSON.string_value (sj_Email sj));
                (bs "when", when)]).

(** Fields in declaration order; [parents] is left out when the slice is
    empty ([omitempty]). *)
Definition encode_commitJSON (cj : commitJSON) : result JSON.value :=
  author ← encode_signatureJSON (cj_Author cj);
  committer ← encode_signatureJSON (cj_Committer cj);
  Ok (JSON.Obj
        ([(bs "type", JSON.string_value (cj_Type cj));
          (bs "tree", JSON.string_value (cj_Tree cj))]
         ++ match cj_Parents cj with
            | [] => []
            | ps => [(bs "parents", JSON.Arr (map JSON.string_value ps))]
            end
         ++ [(bs "author", author);
             (bs "committer", committer);
             (bs "message", JSON.string_value (cj_Message cj));
             (bs "timestamp", JSON.Num (format_int (cj_Timestamp cj)))])).

Definition decode_signatureJSON
    : JSON.value -> signatureJSON -> result signatureJSON :=
  JSON.decode_struct "objects.signatureJSON"
    (fun key v sj =>
       if JSON.field_is key "name" then
         x ← JSON.decode_string v (sj_Name sj);
         Ok {| sj_Name := x; sj_Email := sj_Email sj; sj_When := sj_When sj |}
       else if JSON.field_is key "email" then
         x ← JSON.decode_string v (sj_Email sj);
         Ok {| sj_Name := sj_Name sj; sj_Email := x; sj_When := sj_When sj |}
       else if JSON.field_is key "when" then
         x ← decode_Time v (sj_When sj);
         Ok {| sj_Name := sj_Name sj; sj_Email := sj_Email sj; sj_When := x |}
       else Ok sj).

Definition set_cj_Author (cj : commitJSON) (x : signatureJSON) : commitJSON :=
  {| cj_Type := cj_Type cj; cj_Tree := cj_Tree cj; cj_Parents := cj_Parents cj;
     cj_Author := x; cj_Committer := cj_Committer cj;
     cj_Message := cj_Message cj; cj_Timestamp := cj_Timestamp cj |}.

Definition set_cj_Committer (cj : commitJSON) (x : signatureJSON) : commitJSON :=
  {| cj_Type := cj_Type cj; cj_Tree := cj_Tree cj; cj_Parents := cj_Parents cj;
     cj_Author := cj_Author cj; cj_Committer := x;
     cj_Message := cj_Message cj; cj_Timestamp := cj_Timestamp cj |}.

Definition decode_commitJSON : JSON.value -> commitJSON -> result commitJSON :=
  JSON.decode_struct "objects.commitJSON"
    (fun key v cj =>
       if JSON.field_is key "type" then
         x ← JSON.decode_string v (cj_Type cj);
         Ok {| cj_Type := x; cj_Tree := cj_Tree cj; cj_Parents := cj_Parents cj;
               cj_Author := cj_Author cj; cj_Committer := cj_Committer cj;
               cj_Message := cj_Message cj; cj_Timestamp := cj_Timestamp cj |}
       else if JSON.field_is key "tree" then
         x ← JSON.decode_string v (cj_Tree cj);
         Ok {| cj_Type := cj_Type cj; cj_Tree := x; cj_Parents := cj_Parents cj;
               cj_Author := cj_Author cj; cj_Committer := cj_Committer cj;
               cj_Message := cj_Message cj; cj_Timestamp := cj_Timestamp cj |}
       else if JSON.field_is key "parents" then
         x ← JSON.decode_slice "[]objects.Hash" "" JSON.decode_string v
               (cj_Parents cj);
         Ok {| cj_Type := cj_Type cj; cj_Tree := cj_Tree cj; cj_Parents := x;
               cj_Author := cj_Author cj; cj_Committer := cj_Committer cj;
               cj_Message := cj_Message cj; cj_Timestamp := cj_Timestamp cj |}
       else if JSON.field_is key "author" then
         x ← decode_signatureJSON v (cj_Author cj); Ok (set_cj_Author cj x)
       else if JSON.field_is key "committer" then
         x ← decode_signatureJSON v (cj_Committer cj); Ok (set_cj_Committer cj x)
       else if JSON.field_is key "message" then
         x ← JSON.decode_string v (cj_Message cj);
         Ok {| cj_Type := cj_Type cj; cj_Tree := cj_Tree cj;
               cj_Parents := cj_Parents cj;
               cj_Author := cj_Author cj; cj_Committer := cj_Committer cj;
               cj_Message := x; cj_Timestamp := cj_Timestamp cj |}
       else if JSON.field_is key "timestamp" then
         x ← JSON.decode_int v (cj_Timestamp cj);
         Ok {| cj_Type := cj_Type cj; cj_Tree := cj_Tree cj;
               cj_Parents := cj_Parents cj;
               cj_Author := cj_Author cj; cj_Committer := cj_Committer cj;
               cj_Message := cj_Message cj; cj_Timestamp := x |}
       else Ok cj).

Definition signatureJSON_zero : signatureJSON :=
  {| sj_Name := ""; sj_Email := ""; sj_When := Time_zero |}.

Definition commitJSON_zero : commitJSON :=
  {| cj_Type := ""; cj_Tree := ""; cj_Parents := [];
     cj_Author := signatureJSON_zero; cj_Committer := signatureJSON_zero;
     cj_Message := ""; cj_Timestamp := 0 |}.

Definition Commit_Serialize (c : Commit) : result bytes :=
  let cj := {| cj_Type := CommitObject;
               cj_Tree := commit_tree c;
               cj_Parents := commit_parents c;
               cj_Author := toJSONSignature (commit_author c);
               cj_Committer := toJSONSignature (commit_committer c);
               cj_Message := commit_message c;
               cj_Timestamp := Time_Unix (Signature_Time (commit_author c)) |} in
  doc ← wrap "failed to serialize commit" (encode_commitJSON cj);
  Ok (with_header (Commit_Type c) doc).

Definition DeserializeCommit (data : bytes) : result Commit :=
  match index_NUL data with
  | None => Err "invalid commit data format"
  | Some i =>
      cj ← wrap "failed to deserialize commit"
             (Unmarshal decode_commitJSON (drop (S i) data) commitJSON_zero);
      if negb (cj_Type cj =? CommitObject)%string then
        Err ("invalid object type: expected commit, got " +:+ cj_Type cj)
      else
        author ← wrap "invalid author signature"
                   (fromJSONSignature (cj_Author cj));
        committer ← wrap "invalid committer signature"
                      (fromJSONSignature (cj_Committer cj));
        wrap "deserialized commit validation failed"
          (NewCommit (cj_Tree cj) (cj_Parents cj) author committer
             (cj_Message cj))
  end.

(** ** [tag.go] *)

Record Tag := mkTag {
  tag_object : Hash;
  tag_objType : ObjectType;
  tag_tagName : string;
  tag_tagger : Signature;
  tag_message : string;
  tag_hash : Hash
}.

Definition NewTag (object : Hash) (objType : ObjectType) (tagName : string)
    (tagger : Signature) (message : string) : result Tag :=
  if Hash_IsEmpty object then Err "tag object cannot be empty"
  else
    _ ← wrap "invalid object type" (ObjectType_Validate objType);
    if (tagName =? "")%string then Err "tag name cannot be empty"
    else
      _ ← wrap "invalid tagger signature" (Signature_Validate tagger);
      Ok {| tag_object := object; tag_objType := objType;
            tag_tagName := tagName; tag_tagger := tagger;
            tag_message := message; tag_hash := "" |}.

Definition Tag_Type (t : Tag) : ObjectType := TagObject.

Definition Tag_Serialize (t : Tag) : result bytes :=
  let st := JSON.Obj [(bs "type", JSON.string_value TagObject);
                      (bs "object", JSON.string_value (tag_object t));
                      (bs "objType", JSON.string_value (tag_objType t));
                      (bs "tag", JSON.string_value (tag_tagName t));
                      (bs "tagger", encode_Signature (tag_tagger t));
                      (bs "message", JSON.string_value (tag_message t))] in
  Ok (with_header (Tag_Type t) st).

(** ** [fmt.Sscanf(header, "%s %d", &objType, &size)]

    [%s] skips spaces and takes the next word; the space of the format
    takes one or more spaces of the input (or its end); [%d] skips spaces
    and takes a signed decimal number that fits 64 bits.  A newline
    before the number is an error.  Input left over is ignored. *)

Module Scan.

(** [isSpace] of package [fmt]. *)
Definition isSpace (r : Z) : bool := UTF8.IsSpace r.

(** [SkipSpace]: [None] is the error "unexpected newline". *)
Fixpoint SkipSpace (fuel : nat) (s : bytes) : option bytes :=
  match fuel with
  | O => Some s
  | S f =>
      match s with
      | [] => Some []
      | _ =>
          let '(r, n) := UTF8.DecodeRune s in
          if (r =? 13) && bool_decide (take 1 (drop n s) = [byte_of 10])
          then SkipSpace f (drop n s)
          else if r =? 10 then None
          else if isSpace r then SkipSpace f (drop n s)
          else Some s
      end
  end.

(** The word at the head of [s]: runes up to the first space. *)
Fixpoint token (fuel : nat) (s : bytes) : bytes * bytes :=
  match fuel with
  | O => ([], s)
  | S f =>
      match s with
      | [] => ([], [])
      | _ =>
          let '(r, n) := UTF8.DecodeRune s in
          if isSpace r then ([], s)
          else
            let '(w, rest) := token f (drop n s) in
            (UTF8.EncodeRune r ++ w, rest)
      end
  end.

(** Spaces other than newline. *)
Fixpoint skip_blanks (fuel : nat) (s : bytes) : bytes :=
  match fuel with
  | O => s
  | S f =>
      match s with
      | [] => []
      | _ =>
          let '(r, n) := UTF8.DecodeRune s in
          if isSpace r && negb (r =? 10) then skip_blanks f (drop n s) else s
      end
  end.

Fixpoint span_digits_ (s : bytes) : bytes * bytes :=
  match s with
  | c :: s' =>
      if is_digit c || (byte_val c =? 0x5F)
      then let '(d, r) := span_digits_ s' in (c :: d, r)
      else ([], s)
  | [] => ([], [])
  end.

(** [scanInt] for the verb [%d], after the spaces. *)
Definition scanInt (s : bytes) : option Z :=
  let '(neg, s1) :=
    match s with
    | c :: s' =>
        if byte_val c =? 0x2D then (true, s')
        else if byte_val c =? 0x2B then (false, s')
        else (false, s)
    | [] => (false, s)
    end in
  let '(d, _) := span_digits_ s1 in
  match d with
  | [] => None
  | _ =>
      if forallb is_digit d then
        let n := if neg then - JSON.digits_value d else JSON.digits_value d in
        if (- 2 ^ 63 <=? n) && (n <? 2 ^ 63) then Some n else None
      else None
  end.

Definition Sscanf_s_d (input : bytes) : result (string * Z) :=
  match SkipSpace (length input) input with
  | None => Err "unexpected newline"
  | Some [] => Err "unexpected EOF"
  | Some s1 =>
      let '(word, s2) := token (length s1) s1 in
      (* the space of the format *)
      let '(r, _) := UTF8.DecodeRune s2 in
      if bool_decide (s2 <> []) && negb (isSpace r) then
        Err "expected space in input to match format"
      else if bool_decide (s2 <> []) && (r =? 10) then
        Err "newline in input does not match format"
      else
        match SkipSpace (length s2) (skip_blanks (length s2) s2) with
        | None => Err "unexpected newline"
        | Some [] => Err "unexpected EOF"
        | Some s3 =>
            match scanInt s3 with
            | Some n => Ok (str word, n)
            | None => Err "expected integer"
            end
        end
  end.

End Scan.

(** ** Package [utils]: compression

    Zstandard is a collaborator: the store only needs a compressor that
    always succeeds and a decompressor that may fail. *)

Record Zstd := mkZstd {
  CompressZstd : bytes -> bytes;
  DecompressZstd : bytes -> result bytes
}.

(** What the store relies on: decompression undoes compression. *)
Definition Zstd_lossless (z : Zstd) : Prop :=
  forall data, DecompressZstd z (CompressZstd z data) = Ok data.

(** A codec that stores the bytes as they are. *)
Definition Zstd_stored : Zstd :=
  {| CompressZstd := fun d => d; DecompressZstd := fun d => Ok d |}.

(** ** Package [storage] ([object_store.go])

    The file system is a finite map from paths to contents.  Reading a
    path outside the map fails; writing always succeeds (running out of
    space or permissions is outside the model), so creating the fan-out
    directory leaves no trace. *)

Abbreviation FS := (gmap string bytes).

Definition ReadFile (fs : FS) (path : string) : result bytes :=
  match fs !! path with
  | Some data => Ok data
  | None => Err "failed to open file"
  end.

(** Temporary file, then rename: afterwards [path] holds [data]. *)
Definition WriteFileAtomic (fs : FS) (path : string) (data : bytes) : FS :=
  <[path := data]> fs.

(** Everything that implements [Serializable]. *)
Inductive Serializable : Type :=
| OBlob (b : Blob)
| OTree (t : Tree)
| OCommit (c : Commit)
| OTag (t : Tag).

Definition Serialize (obj : Serializable) : result bytes :=
  match obj with
  | OBlob b => Blob_Serialize b
  | OTree t => Tree_Serialize t
  | OCommit c => Commit_Serialize c
  | OTag t => Tag_Serialize t
  end.

Definition Type_ (obj : Serializable) : ObjectType :=
  match obj with
  | OBlob b => Blob_Type b
  | OTree t => Tree_Type t
  | OCommit c => Commit_Type c
  | OTag t => Tag_Type t
  end.

(** [obj.(objects.Hashable)]: the interface asks for [SetHash] and
    [GetHash]; only [Blob] has both (the other three name their getter
    [Hash]), so only a blob receives the hash. *)
Definition SetHash_if_Hashable (obj : Serializable) (h : Hash) : Serializable :=
  match obj with
  | OBlob b => OBlob (Blob_SetHash b h)
  | _ => obj
  end.

Record ObjectStore := mkObjectStore { objectsDir : string }.

Section Storage.
Variable os : Platform.
Variable zstd : Zstd.

Definition hashToPath (store : ObjectStore) (hash : Hash) : result string :=
  let hashStr := Hash_String hash in
  if (String.length hashStr <? 2)%nat then Err ("hash too short: " +:+ hash)
  else
    let dirName := take 2 (bs hashStr) in
    let fileName := drop 2 (bs hashStr) in
    Ok (str (Filepath.Join os [bs (objectsDir store); dirName; fileName])).

Definition WriteObject (store : ObjectStore) (fs : FS) (obj : Serializable)
    : result (Hash * Serializable * FS) :=
  data ← wrap "failed to serialize object" (Serialize obj);
  let hash := calculateHash data in
  objectPath ← wrap "failed to create object path" (hashToPath store hash);
  let compressedData := CompressZstd zstd data in
  let fs' := WriteFileAtomic fs objectPath compressedData in
  Ok (hash, SetHash_if_Hashable obj hash, fs').

Definition detectObjectType (data : bytes) : result ObjectType :=
  match index_NUL data with
  | Some i =>
      let header := take i data in
      '(objType, size) ← wrap "failed to parse object header"
                           (Scan.Sscanf_s_d header);
      _ ← wrap "invalid object type in header" (ObjectType_Validate objType);
      Ok objType
  | None => Err "object data malformed: no null byte separator found"
  end.

Definition deserializeByType (objType : ObjectType) (data : bytes)
    : result Serializable :=
  if (objType =? BlobObject)%string then
    match index_NUL data with
    | Some i => Ok (OBlob (NewBlob (Some (drop (S i) data))))
    | None => Err "malformed blob data"
    end
  else if (objType =? TreeObject)%string then
    OTree <$> DeserializeTree data
  else if (objType =? CommitObject)%string then
    OCommit <$> DeserializeCommit data
  else if (objType =? TagObject)%string then
    Err "tag deserialization not implemented yet"
  else Err ("unsupported object type: " +:+ objType).

Definition ReadObject (store : ObjectStore) (fs : FS) (hash : Hash)
    : result Serializable :=
  if Hash_IsEmpty hash then Err "hash cannot be empty"
  else
    objectPath ← wrap "failed to create object path" (hashToPath store hash);
    compressedData ← wrap "failed to read object file" (ReadFile fs objectPath);
    data ← wrap "failed to decompress object" (DecompressZstd zstd compressedData);
    let calculatedHash := calculateHash data in
    if negb (calculatedHash =? hash)%string then
      Err ("object integrity check failed: expected " +:+ hash
           +:+ ", got " +:+ calculatedHash)
    else
      objType ← wrap "failed to detect object type" (detectObjectType data);
      obj ← wrap "failed to deserialize object" (deserializeByType objType data);
      Ok (SetHash_if_Hashable obj hash).

Definition ObjectExists (store : ObjectStore) (fs : FS) (hash : Hash) : bool :=
  match hashToPath store hash with
  | Ok objectPath => bool_decide (is_Some (fs !! objectPath))
  | Err _ => false
  end.

End Storage.

(** ** Package [index] ([index.go]) *)

Record IndexEntry := mkIndexEntry {
  ie_Hash : string;
  ie_Size : Z;
  ie_Mode : string;
  ie_Mtime : Time;
  ie_Path : string;
  ie_ctime : Time;
  ie_validated : bool;
  ie_stage : Z
}.

(** [Entries] is a Go map: [None] is the nil map, which reads as empty
    and panics on assignment. *)
Record Index := mkIndex {
  idx_path : string;
  idx_version : Z;
  idx_Version : Z;
  idx_Entries : option (gmap string IndexEntry)
}.

Definition entries_of (idx : Index) : gmap string IndexEntry :=
  default ∅ (idx_Entries idx).

Definition set_Entries (idx : Index) (m : option (gmap string IndexEntry)) : Index :=
  {| idx_path := idx_path idx; idx_version := idx_version idx;
     idx_Version := idx_Version idx; idx_Entries := m |}.

Definition validModes : gmap string bool :=
  <["100644" := true]> (<["100755" := true]> (<["040000" := true]> ∅)).

Definition isValidMode (mode : string) : bool :=
  default false (validModes !! mode).

Section Index.
Variable os : Platform.

Definition normalizePath (path : string) : string :=
  let cleanPath := Filepath.Clean os (bs path) in
  str (Filepath.ToSlash os cleanPath).

(** [now] is what [time.Now()] returns during the call. *)
Definition Index_Add (now : Time) (idx : Index) (path hash : string)
    (size : Z) (mode : string) (mtime : Time) : result Index :=
  if (path =? "")%string then Err "path cannot be empty"
  else if (hash =? "")%string then Err "hash cannot be empty"
  else if size <? 0 then Err "size cannot be negative"
  else if negb (isValidMode mode) then Err ("invalid file mode: " +:+ mode)
  else
    let normalizedPath := normalizePath path in
    let entry := {| ie_Hash := hash; ie_Size := size; ie_Mode := mode;
                    ie_Mtime := mtime; ie_Path := normalizedPath;
                    ie_ctime := now; ie_validated := true; ie_stage := 0 |} in
    match idx_Entries idx with
    | Some m => Ok (set_Entries idx (Some (<[normalizedPath := entry]> m)))
    | None => Err "panic: assignment to entry in nil map"
    end.

Definition Index_Remove (idx : Index) (path : string) : result Index :=
  if (path =? "")%string then Err "path cannot be empty"
  else
    let normalizedPath := normalizePath path in
    match entries_of idx !! normalizedPath with
    | None => Err ("file not found in index: " +:+ path)
    | Some _ =>
        Ok (set_Entries idx (delete normalizedPath <$> idx_Entries idx))
    end.

Definition Index_Clear (idx : Index) : Index := set_Entries idx (Some ∅).

Definition Index_Get (idx : Index) (path : string) : result IndexEntry :=
  if (path =? "")%string then Err "path cannot be empty"
  else
    match entries_of idx !! normalizePath path with
    | Some entry => Ok entry
    | None => Err ("file not found in index: " +:+ path)
    end.

Definition Index_Count (idx : Index) : nat := size (entries_of idx).
Definition Index_HasChanges (idx : Index) : bool := (0 <? Index_Count idx)%nat.

(** *** The persisted document *)

Definition IndexEntry_zero : IndexEntry :=
  {| ie_Hash := ""; ie_Size := 0; ie_Mode := ""; ie_Mtime := Time_zero;
     ie_Path := ""; ie_ctime := Time_zero; ie_validated := false;
     ie_stage := 0 |}.

Definition encode_IndexEntry (e : IndexEntry) : result JSON.value :=
  mtime ← Time_MarshalJSON (ie_Mtime e);
  Ok (JSON.Obj [(bs "hash", JSON.string_value_html (ie_Hash e));
                (bs "size", JSON.Num (format_int (ie_Size e)));
                (bs "mode", JSON.string_value_html (ie_Mode e));
                (bs "mtime", mtime);
                (bs "path", JSON.string_value_html (ie_Path e))]).

(** A map is written with its keys in increasing order. *)
Fixpoint encode_members (kvs : list (string * IndexEntry))
    : result (list (bytes * JSON.value)) :=
  match kvs with
  | [] => Ok []
  | kv :: kvs' =>
      v ← encode_IndexEntry (snd kv);
      ms ← encode_members kvs';
      Ok ((JSON.quote_html (bs (fst kv)), v) :: ms)
  end.

Definition sorted_entries (m : gmap string IndexEntry)
    : list (string * IndexEntry) :=
  sort_Slice (fun a b => (fst a <? fst b)%string) (map_to_list m).

Definition encode_Index (idx : Index) : result JSON.value :=
  entries ← match idx_Entries idx with
            | None => Ok JSON.Null
            | Some m => JSON.Obj <$> encode_members (sorted_entries m)
            end;
  Ok (JSON.Obj [(bs "version", JSON.Num (format_int (idx_Version idx)));
                (bs "entries", entries)]).

Definition decode_IndexEntry : JSON.value -> IndexEntry -> result IndexEntry :=
  JSON.decode_struct "index.IndexEntry"
    (fun key v e =>
       if JSON.field_is key "hash" then
         x ← JSON.decode_string v (ie_Hash e);
         Ok {| ie_Hash := x; ie_Size := ie_Size e; ie_Mode := ie_Mode e;
               ie_Mtime := ie_Mtime e; ie_Path := ie_Path e;
               ie_ctime := ie_ctime e; ie_validated := ie_validated e;
               ie_stage := ie_stage e |}
       else if JSON.field_is key "size" then
         x ← JSON.decode_int v (ie_Size e);
         Ok {| ie_Hash := ie_Hash e; ie_Size := x; ie_Mode := ie_Mode e;
               ie_Mtime := ie_Mtime e; ie_Path := ie_Path e;
               ie_ctime := ie_ctime e; ie_validated := ie_validated e;
               ie_stage := ie_stage e |}
       else if JSON.field_is key "mode" then
         x ← JSON.decode_string v (ie_Mode e);
         Ok {| ie_Hash := ie_Hash e; ie_Size := ie_Size e; ie_Mode := x;
               ie_Mtime := ie_Mtime e; ie_Path := ie_Path e;
               ie_ctime := ie_ctime e; ie_validated := ie_validated e;
               ie_stage := ie_stage e |}
       else if JSON.field_is key "mtime" then
         x ← decode_Time v (ie_Mtime e);
         Ok {| ie_Hash := ie_Hash e; ie_Size := ie_Size e; ie_Mode := ie_Mode e;
               ie_Mtime := x; ie_Path := ie_Path e;
               ie_ctime := ie_ctime e; ie_validated := ie_validated e;
               ie_stage := ie_stage e |}
       else if JSON.field_is key "path" then
         x ← JSON.decode_string v (ie_Path e);
         Ok {| ie_Hash := ie_Hash e; ie_Size := ie_Size e; ie_Mode := ie_Mode e;
               ie_Mtime := ie_Mtime e; ie_Path := x;
               ie_ctime := ie_ctime e; ie_validated := ie_validated e;
               ie_stage := ie_stage e |}
       else Ok e).

(** A map: [null] makes it nil; an object adds its members to the map
    the target holds (a fresh one if it was nil), each value decoded
    into a zero entry. *)
Definition decode_Entries (v : JSON.value)
    (cur : option (gmap string IndexEntry))
    : result (option (gmap string IndexEntry)) :=
  match v with
  | JSON.Null => Ok None
  | JSON.Obj ms =>
      Some <$>
      fold_left
        (fun acc kv =>
           m ← acc;
           match JSON.unquote (fst kv) with
           | Some key =>
               e ← decode_IndexEntry (snd kv) IndexEntry_zero;
               Ok (<[str key := e]> m)
           | None => Err "JSON decoder out of sync - data changing underfoot?"
           end)
        ms (Ok (default ∅ cur))
  | _ => JSON.type_error "map[string]index.IndexEntry"
  end.

(** The anonymous struct [load] decodes into. *)
Record loadedIndex := mkLoadedIndex {
  li_Version : Z;
  li_Entries : option (gmap string IndexEntry)
}.

Definition decode_loadedIndex : JSON.value -> loadedIndex -> result loadedIndex :=
  JSON.decode_struct "struct"
    (fun key v li =>
       if JSON.field_is key "version" then
         x ← JSON.decode_int v (li_Version li);
         Ok {| li_Version := x; li_Entries := li_Entries li |}
       else if JSON.field_is key "entries" then
         x ← decode_Entries v (li_Entries li);
         Ok {| li_Version := li_Version li; li_Entries := x |}
       else Ok li).

Definition Index_load (fs : FS) (idx : Index) : result Index :=
  match fs !! idx_path idx with
  | None => Err "open: no such file or directory"
  | Some data =>
      if (length data =? 0)%nat then Ok (set_Entries idx (Some ∅))
      else
        match Unmarshal decode_loadedIndex data
                {| li_Version := 0; li_Entries := None |} with
        | Err _ => Ok (set_Entries idx (Some ∅))
        | Ok loaded =>
            Ok {| idx_path := idx_path idx; idx_version := idx_version idx;
                  idx_Version := li_Version loaded;
                  idx_Entries := li_Entries loaded |}
        end
  end.

(** [Save]: the map is rebuilt (a nil map becomes an empty one), the
    document written to [path.tmp] and renamed to [path]. *)
Definition Index_Save (fs : FS) (idx : Index) : result (Index * FS) :=
  let idx := set_Entries idx (Some (entries_of idx)) in
  doc ← wrap "failed to marshal index" (encode_Index idx);
  let data := JSON.render_indent 0 doc in
  let tmpPath := idx_path idx +:+ ".tmp" in
  let fs1 := <[tmpPath := data]> fs in
  let fs2 := <[idx_path idx := data]> (delete tmpPath fs1) in
  Ok (idx, fs2).

Definition indexPath (repoPath : string) : string :=
  str (Filepath.Join os [bs repoPath; bs ".sib"; bs "index"]).

Definition NewIndex (fs : FS) (repoPath : string) : result (Index * FS) :=
  let indexPath := indexPath repoPath in
  fs1 ← match fs !! indexPath with
        | None =>
            let emptyIndex := {| idx_path := indexPath; idx_version := 1;
                                 idx_Version := 1; idx_Entries := Some ∅ |} in
            '(_, fs') ← wrap "failed to create index file"
                          (Index_Save fs emptyIndex);
            Ok fs'
        | Some _ => Ok fs
        end;
  let idx := {| idx_path := indexPath; idx_version := 1; idx_Version := 1;
                idx_Entries := Some ∅ |} in
  match Index_load fs1 idx with
  | Ok idx' => Ok (idx', fs1)
  | Err _ =>
      (* the only error the model has is a missing file, which
         [NewIndex] lets pass *)
      Ok (idx, fs1)
  end.

End Index.

(** *** The three spellings of one path

    [Add] called on a path written with forward slashes, with a
    backslash, and with a leading [./], as the index tests do. *)
Definition add_three_spellings (os : Platform) (now : Time) (idx : Index)
    (hash : string) (size : Z) (mode : string) (mtime : Time) : result Index :=
  idx1 ← Index_Add os now idx "a/b.txt" hash size mode mtime;
  idx2 ← Index_Add os now idx1 "a\b.txt" hash size mode mtime;
  Index_Add os now idx2 "./a/b.txt" hash size mode mtime.

(** ** Orders and sample data used by the properties below *)

(** The order [sortEntries] sorts by, and its strict test. *)
Definition entry_le (a b : TreeEntry) : Prop := String.le (te_name a) (te_name b).
Definition entry_less (a b : TreeEntry) : bool := (te_name a <? te_name b)%string.
Definition claimed_modes : list string := ["100644"; "100755"; "040000"; "120000"].
Definition object_modes : list string := ["100644"; "100755"; "40000"; "120000"].
Definition index_modes : list string := ["100644"; "100755"; "040000"].
Definition entry_readme : TreeEntry :=
  mkTreeEntry FileModeRegular "README.md" "aa11" BlobObject.
Definition entry_src : TreeEntry :=
  mkTreeEntry FileModeDir "src" "bb22" TreeObject.
Definition entry_script : TreeEntry :=
  mkTreeEntry FileModeExec "script.sh" "cc33" BlobObject.
Definition tree_two : Tree := mkTree [entry_readme; entry_src] "".
Definition store0 : ObjectStore := {| objectsDir := "/repo/.sib/objects" |}.
Definition corrupted : bytes := bs "this is corrupted data that will break the hash".
Definition important_hash : Hash :=
  Eval vm_compute in
    calculateHash (bs "blob 14" ++ [NUL] ++ bs "important data").
Definition important_path : string :=
  Eval vm_compute in
    match hashToPath unix store0 important_hash with Ok p => p | Err _ => "" end.
Definition corruptJSON : bytes := bs "{" ++ dq "version" ++ bs ": 1, " ++ dq "entries" ++ bs ": { " ++ dq "test" ++ bs ": { ".
Definition noon : Time := mkTime 1700000000 0 0.

(** * Properties *)

(** ** SHA-256 test vectors (from the tests of [utils] and [storage]) *)

Example sha256_hello_world :
  str (hex_of_bytes (SHA256.Sum256 (bs "hello world")))
  = "b94d27b9934d3e08a52e52d7da7dabfac484efe37a5380ee9088f7ace2efcde9".
Proof. vm_compute. reflexivity. Qed.

Example sha256_special_characters :
  str (hex_of_bytes (SHA256.Sum256 (bs "test" ++ map byte_of [10; 13; 9; 0])))
  = "d00c161ea28e969d839502aeff7a7d02a6c061b56e96ffaaec3c86e0d1a53256".
Proof. vm_compute. reflexivity. Qed.


(** ** [sort.Slice] returns a sorted permutation *)

Section SortFacts.
Context {A : Type} (less : A -> A -> bool) (le : relation A).
Context `{!Transitive le, !Total le}.
Hypothesis less_spec : forall x y, less x y = false <-> le y x.

Lemma less_false_le x y : less x y = false -> le y x.
Proof. apply less_spec. Qed.

Lemma less_true_le x y : less x y = true -> le x y.
Proof.
  intros H. destruct (total le x y) as [|Hyx]; [done|].
  apply less_spec in Hyx. congruence.
Qed.

Lemma insert_back_perm x racc : insert_back less x racc ≡ₚ x :: racc.
Proof.
  induction racc as [|p racc IH]; simpl; [done|].
  destruct (less x p); [|done].
  rewrite IH. apply Permutation_swap.
Qed.

Lemma insert_back_sorted x racc :
  StronglySorted (flip le) racc ->
  StronglySorted (flip le) (insert_back less x racc).
Proof.
  induction 1 as [|p racc Hs IH Hp]; simpl.
  - repeat constructor.
  - destruct (less x p) eqn:Hlt.
    + constructor; [done|].
      rewrite insert_back_perm. constructor; [|done].
      by apply less_true_le.
    + apply less_false_le in Hlt.
      constructor; [by constructor|].
      constructor; [done|].
      eapply Forall_impl; [exact Hp|].
      intros q Hq. unfold flip in *. by etrans.
Qed.

Lemma sort_Slice_perm l : sort_Slice less l ≡ₚ l.
Proof.
  unfold sort_Slice.
  assert (G : forall racc,
    fold_left (fun r x => insert_back less x r) l racc ≡ₚ l ++ racc).
  { induction l as [|x l IH]; intros racc; simpl; [done|].
    rewrite IH, insert_back_perm. by rewrite Permutation_middle. }
  rewrite <- (Permutation_rev (fold_left _ l [])).
  rewrite G. by rewrite app_nil_r.
Qed.

Lemma sort_Slice_sorted l : StronglySorted le (sort_Slice less l).
Proof.
  unfold sort_Slice.
  assert (G : forall racc, StronglySorted (flip le) racc ->
    StronglySorted (flip le)
      (fold_left (fun r x => insert_back less x r) l racc)).
  { induction l as [|x l IH]; intros racc Hr; simpl; [done|].
    apply IH, insert_back_sorted, Hr. }
  specialize (G [] (SSorted_nil _)).
  revert G. generalize (fold_left (fun r x => insert_back less x r) l []).
  intros r Hr. induction Hr as [|p r Hs IH Hp]; simpl; [constructor|].
  apply StronglySorted_app_2; [|done|repeat constructor].
  intros x1 x2 Hx1 Hx2. apply list_elem_of_singleton in Hx2 as ->.
  rewrite Forall_forall in Hp. apply Hp.
  apply list_elem_of_In, in_rev, list_elem_of_In. exact Hx1.
Qed.
End SortFacts.

(** ** Trees: [AddEntry] keeps the entries sorted and the names unique *)


#[local] Instance entry_le_trans : Transitive entry_le.
Proof. intros a b c. unfold entry_le. apply transitivity. Qed.
#[local] Instance entry_le_total : Total entry_le.
Proof. intros a b. unfold entry_le. apply (total String.le). Qed.

Lemma entry_less_spec x y : entry_less x y = false <-> entry_le y x.
Proof.
  unfold entry_less, entry_le, String.le, String.ltb, String.leb.
  rewrite (String.compare_antisym (te_name x) (te_name y)).
  destruct (te_name y ?= te_name x)%string; simpl; split; intros; done.
Qed.

Lemma names_inj (l : list TreeEntry) x1 x2 :
  NoDup (te_name <$> l) -> x1 ∈ l -> x2 ∈ l -> te_name x1 = te_name x2 -> x1 = x2.
Proof.
  induction l as [|e l IH]; simpl; intros Hnd H1 H2 Hn; [by inv H1|].
  apply NoDup_cons in Hnd as [Hnotin Hnd].
  apply elem_of_cons in H1 as [->|H1], H2 as [->|H2]; auto.
  - exfalso. apply Hnotin. rewrite Hn. by apply list_elem_of_fmap_2.
  - exfalso. apply Hnotin. rewrite <- Hn. by apply list_elem_of_fmap_2.
Qed.

Lemma sortEntries_names_perm l :
  te_name <$> sort_Slice entry_less l ≡ₚ te_name <$> l.
Proof. apply fmap_Permutation, sort_Slice_perm. Qed.

Lemma sortEntries_sorted l :
  NoDup (te_name <$> l) ->
  StronglySorted String.le (te_name <$> sort_Slice entry_less l)
  /\ NoDup (te_name <$> sort_Slice entry_less l).
Proof.
  intros Hnd. split.
  - apply (StronglySorted_fmap te_name entry_le String.le); [done|].
    apply sort_Slice_sorted; [apply _..|apply entry_less_spec].
  - by rewrite sortEntries_names_perm.
Qed.

(** Sorting entries that are already in order moves nothing. *)
Lemma sortEntries_fixed l :
  StronglySorted String.le (te_name <$> l) -> NoDup (te_name <$> l) ->
  sort_Slice entry_less l = l.
Proof.
  intros Hs Hnd.
  apply (StronglySorted_unique_strong entry_le).
  - intros x1 x2 H1 H2 H12 H21. apply (names_inj l); auto.
    + by rewrite <- (sort_Slice_perm entry_less l).
    + apply (anti_symm String.le); done.
  - apply sort_Slice_sorted; [apply _..|apply entry_less_spec].
  - clear Hnd. induction l as [|e l IH]; [constructor|].
    rewrite fmap_cons in Hs. apply StronglySorted_cons in Hs as [Hall Hs].
    constructor; [auto|]. rewrite Forall_fmap in Hall. exact Hall.
  - apply sort_Slice_perm.
Qed.

Lemma find_entry_Some name es i :
  find_entry name es = Some i ->
  exists e, es !! i = Some e /\ te_name e = name.
Proof.
  revert i. induction es as [|e es IH]; simpl; intros i H; [done|].
  destruct (te_name e =? name)%string eqn:E.
  - inv H. exists e. split; [done|]. by apply String.eqb_eq.
  - destruct (find_entry name es) as [j|]; [|done]. inv H.
    destruct (IH j eq_refl) as (e' & ? & ?). by exists e'.
Qed.

Lemma find_entry_None name es :
  find_entry name es = None -> name ∉ te_name <$> es.
Proof.
  induction es as [|e es IH]; simpl; intros H; [apply not_elem_of_nil|].
  destruct (te_name e =? name)%string eqn:E; [done|].
  destruct (find_entry name es); [done|].
  apply not_elem_of_cons. split; [|auto].
  apply String.eqb_neq in E. congruence.
Qed.

(** With unique names the first match is the only one. *)
Lemma find_entry_lookup name (es : list TreeEntry) (i : nat) e :
  NoDup (te_name <$> es) -> es !! i = Some e -> te_name e = name ->
  find_entry name es = Some i.
Proof.
  revert i. induction es as [|e0 es IH]; intros i Hnd Hi Hn; [done|].
  simpl in Hnd. apply NoDup_cons in Hnd as [Hnotin Hnd]. simpl.
  destruct i as [|i]; simpl in Hi.
  - inv Hi. by rewrite String.eqb_refl.
  - destruct (te_name e0 =? name)%string eqn:E.
    + apply String.eqb_eq in E. exfalso. apply Hnotin. rewrite E, <- Hn.
      apply list_elem_of_fmap_2. by eapply list_elem_of_lookup_2.
    + by rewrite (IH i Hnd Hi Hn).
Qed.

Lemma fmap_insert_same_name (es : list TreeEntry) (i : nat) (e e0 : TreeEntry) :
  es !! i = Some e0 -> te_name e0 = te_name e ->
  te_name <$> <[i := e]> es = te_name <$> es.
Proof.
  intros Hi Hn. rewrite list_fmap_insert, <- Hn.
  apply list_insert_id. by rewrite list_lookup_fmap, Hi.
Qed.

Lemma AddEntry_existing t e i e0 :
  tree_sorted t -> tree_entries t !! i = Some e0 -> te_name e0 = te_name e ->
  Tree_AddEntry t e
  = Ok {| tree_entries := <[i := e]> (tree_entries t); tree_hash := tree_hash t |}.
Proof.
  intros [Hs Hnd] Hi Hn. unfold Tree_AddEntry.
  rewrite (find_entry_lookup _ _ i e0) by done.
  unfold Tree_sortEntries; simpl. f_equal. f_equal.
  apply sortEntries_fixed; by rewrite (fmap_insert_same_name _ _ _ e0).
Qed.

Lemma AddEntry_sorted t e :
  tree_sorted t -> exists t', Tree_AddEntry t e = Ok t' /\ tree_sorted t'.
Proof.
  intros [Hs Hnd]. unfold Tree_AddEntry.
  destruct (find_entry (te_name e) (tree_entries t)) as [i|] eqn:F;
    eexists; (split; [reflexivity|]); unfold tree_sorted, entry_names; simpl;
    apply sortEntries_sorted.
  - apply find_entry_Some in F as (e0 & Hi & Hn).
    by rewrite (fmap_insert_same_name _ _ _ e0).
  - apply find_entry_None in F. rewrite fmap_app. simpl.
    apply NoDup_app. split; [done|]. split; [|apply NoDup_singleton].
    intros x Hx ->%list_elem_of_singleton. contradiction.
Qed.

Lemma RemoveEntry_sorted t name :
  tree_sorted t -> tree_sorted (Tree_RemoveEntry t name).1.
Proof.
  intros [Hs Hnd]. unfold Tree_RemoveEntry.
  destruct (find_entry name (tree_entries t)) as [i|]; [|done].
  unfold tree_sorted, entry_names in *; simpl.
  rewrite <- (take_drop i (tree_entries t)) in Hs, Hnd.
  rewrite fmap_app in *.
  rewrite <- (take_drop 1 (drop i (tree_entries t))) in Hs, Hnd.
  rewrite drop_drop in Hs, Hnd. rewrite fmap_app in Hs, Hnd.
  replace (i + 1)%nat with (S i) in * by lia.
  apply StronglySorted_app in Hs as (H1 & H2 & H3).
  apply StronglySorted_app in H3 as (H4 & H5 & H6).
  apply NoDup_app in Hnd as (N1 & N2 & N3).
  apply NoDup_app in N3 as (N4 & N5 & N6).
  split.
  - apply StronglySorted_app_2; [|done..].
    intros x1 x2 Hx1 Hx2. apply H1; [done|]. apply elem_of_app. by right.
  - apply NoDup_app. split; [done|]. split; [|done].
    intros x Hx Hx'. apply (N2 x Hx). apply elem_of_app. by right.
Qed.

Lemma reachable_sorted t : tree_reachable t -> tree_sorted t.
Proof.
  induction 1 as [|t e t' _ IH Ha|t name _ IH|t h _ IH].
  - split; [constructor|apply NoDup_nil_2].
  - destruct (AddEntry_sorted t e IH) as (t'' & Ha' & Hs). congruence.
  - by apply RemoveEntry_sorted.
  - exact IH.
Qed.

Lemma AddEntries_sorted es : forall t,
  tree_sorted t -> exists t', Tree_AddEntries t es = Ok t' /\ tree_sorted t'.
Proof.
  induction es as [|e es IH]; intros t Ht; simpl; [by exists t|].
  destruct (AddEntry_sorted t e Ht) as (t1 & -> & Ht1). simpl.
  apply IH, Ht1.
Qed.

(** C6. Whatever tree the package has built, any run of [AddEntry] calls
    succeeds and leaves the entries sorted ascending by name with no name
    twice; and adding an entry whose name is already at index [i] puts the
    new entry at index [i], all other entries and the length unchanged. *)
Theorem tree_AddEntry_sorted_unique_in_place (t : Tree) (Ht : tree_reachable t) :
  (forall es, exists t',
      Tree_AddEntries t es = Ok t' /\ tree_sorted t') /\
  (forall e i e0,
      tree_entries t !! i = Some e0 -> te_name e0 = te_name e ->
      exists t',
        Tree_AddEntry t e = Ok t' /\
        tree_entries t' = <[i := e]> (tree_entries t) /\
        length (tree_entries t') = length (tree_entries t)).
Proof.
  pose proof (reachable_sorted t Ht) as Hs. split.
  - intros es. by apply AddEntries_sorted.
  - intros e i e0 Hi Hn. eexists. split; [by eapply AddEntry_existing|].
    simpl. split; [done|]. apply length_insert.
Qed.

(** ** Bytes, digits and hexadecimal text *)

Lemma byte_val_range c : 0 <= byte_val c < 256.
Proof.
  unfold byte_val. pose proof (N_ascii_bounded c) as H. lia.
Qed.

Lemma byte_val_of z : 0 <= z < 256 -> byte_val (byte_of z) = z.
Proof.
  intros H. unfold byte_val, byte_of.
  rewrite Z.mod_small by lia. rewrite N_ascii_embedding; lia.
Qed.

Lemma byte_of_val c : byte_of (byte_val c) = c.
Proof.
  unfold byte_val, byte_of. pose proof (N_ascii_bounded c).
  rewrite Z.mod_small by lia. rewrite N2Z.id. apply ascii_N_embedding.
Qed.

Lemma bs_str b : bs (str b) = b.
Proof. apply list_ascii_of_string_of_list_ascii. Qed.

Lemma str_bs s : str (bs s) = s.
Proof. apply string_of_list_ascii_of_string. Qed.

Lemma str_length b : String.length (str b) = length b.
Proof. induction b; simpl; congruence. Qed.

Lemma hex_digit_lower n : 0 <= n < 16 -> is_lower_hex (hex_digit n) = true.
Proof.
  intros H. unfold is_lower_hex, is_digit, hex_digit.
  destruct (n <? 10) eqn:E; rewrite byte_val_of by lia; lia.
Qed.

Lemma hex_of_bytes_length b : length (hex_of_bytes b) = (2 * length b)%nat.
Proof. induction b; simpl; lia. Qed.

Lemma hex_of_bytes_lower b : forallb is_lower_hex (hex_of_bytes b) = true.
Proof.
  induction b as [|c b IH]; [done|]. simpl.
  pose proof (byte_val_range c).
  rewrite !hex_digit_lower, IH; [done| |].
  - apply Z.mod_pos_bound. lia.
  - split; [apply Z.div_pos; lia|apply Z.div_lt_upper_bound; lia].
Qed.

(** ** The digest is 32 bytes, its text 64 lower-case hexadecimal digits *)

Lemma round_length s kw : length (SHA256.round s kw) = length s.
Proof.
  unfold SHA256.round.
  do 9 (destruct s as [|? s]; [reflexivity|]). reflexivity.
Qed.

Lemma fold_round_length kws : forall s,
  length (fold_left SHA256.round kws s) = length s.
Proof.
  induction kws as [|kw kws IH]; intros s; simpl; [done|].
  by rewrite IH, round_length.
Qed.

Lemma block_length h blk : length (SHA256.block h blk) = length h.
Proof.
  unfold SHA256.block. rewrite length_map, length_combine, fold_round_length. lia.
Qed.

Lemma fold_block_length blks : forall h,
  length (fold_left SHA256.block blks h) = length h.
Proof.
  induction blks as [|b blks IH]; intros h; simpl; [done|].
  by rewrite IH, block_length.
Qed.

Lemma flat_map_be_bytes_length (h : list Z) :
  length (flat_map (SHA256.be_bytes 4) h) = (4 * length h)%nat.
Proof.
  induction h as [|a h IH]; [reflexivity|].
  cbn [flat_map]. rewrite length_app, IH.
  change (length (SHA256.be_bytes 4 a)) with 4%nat. simpl length. lia.
Qed.

Lemma Sum256_length msg : length (SHA256.Sum256 msg) = 32%nat.
Proof.
  unfold SHA256.Sum256. rewrite flat_map_be_bytes_length, fold_block_length.
  reflexivity.
Qed.

Lemma calculateHash_length data : String.length (calculateHash data) = 64%nat.
Proof.
  unfold calculateHash. by rewrite str_length, hex_of_bytes_length, Sum256_length.
Qed.

Lemma calculateHash_lower_hex data :
  forallb is_lower_hex (bs (calculateHash data)) = true.
Proof. unfold calculateHash. rewrite bs_str. apply hex_of_bytes_lower. Qed.

(** ** Blobs *)

(** C8. The blob of the five bytes "hello" serializes to "blob 5", a zero
    byte and "hello"; the hash the store computes for these bytes is the
    SHA-256 digest of exactly them, written as 64 lower-case hexadecimal
    digits. *)
Theorem blob_hello_serialize_and_hash :
  let wire := bs "blob 5" ++ [NUL] ++ bs "hello" in
  Blob_Serialize (NewBlob (Some (bs "hello"))) = Ok wire /\
  calculateHash wire = str (hex_of_bytes (SHA256.Sum256 wire)) /\
  calculateHash wire
  = "8aec4e4876f854f688d0ebfc8f37598f38e5fd6903cccc850ca36591175aeb60" /\
  String.length (calculateHash wire) = 64%nat /\
  forallb is_lower_hex (bs (calculateHash wire)) = true.
Proof.
  intros wire. split; [|split; [|split; [|split]]].
  - vm_compute. reflexivity.
  - reflexivity.
  - vm_compute. reflexivity.
  - apply calculateHash_length.
  - apply calculateHash_lower_hex.
Qed.

(** C10. A blob made from the nil slice never serializes: the content is
    nil.  A blob made from an empty, non-nil slice serializes to "blob 0"
    and a zero byte. *)
Theorem blob_nil_fails_empty_serializes :
  Blob_Serialize (NewBlob None) = Err "blob content is nil" /\
  Blob_Serialize (NewBlob (Some [])) = Ok (bs "blob 0" ++ [NUL]).
Proof. split; reflexivity. Qed.

(** ** File modes *)


Lemma FileMode_Validate_iff fm :
  is_ok (FileMode_Validate fm) = true <-> fm ∈ object_modes.
Proof.
  unfold FileMode_Validate, object_modes,
    FileModeRegular, FileModeExec, FileModeDir, FileModeSymlink.
  rewrite !elem_of_cons, elem_of_nil.
  destruct (fm =? "100644")%string eqn:E1; [apply String.eqb_eq in E1; simpl; tauto|].
  destruct (fm =? "100755")%string eqn:E2; [apply String.eqb_eq in E2; simpl; tauto|].
  destruct (fm =? "40000")%string eqn:E3; [apply String.eqb_eq in E3; simpl; tauto|].
  destruct (fm =? "120000")%string eqn:E4; [apply String.eqb_eq in E4; simpl; tauto|].
  apply String.eqb_neq in E1, E2, E3, E4. simpl. split; [done|]. tauto.
Qed.

Lemma isValidMode_iff mode : isValidMode mode = true <-> mode ∈ index_modes.
Proof.
  unfold isValidMode, validModes, index_modes.
  rewrite !elem_of_cons, elem_of_nil.
  destruct (decide (mode = "100644")) as [->|N1]; [simpl; tauto|].
  rewrite lookup_insert_ne by done.
  destruct (decide (mode = "100755")) as [->|N2]; [simpl; tauto|].
  rewrite lookup_insert_ne by done.
  destruct (decide (mode = "040000")) as [->|N3]; [simpl; tauto|].
  rewrite lookup_insert_ne by done. rewrite lookup_empty. simpl.
  split; [done|]. tauto.
Qed.

(** C3, as stated, fails: the directory mode of the object model is not
    "040000", the object model does not accept "040000", and the index
    does not accept the symlink code. *)
Lemma mode_codes_not_as_claimed :
  ~ (FileModeDir = "040000" /\
     (forall fm, is_ok (FileMode_Validate fm) = true <-> fm ∈ claimed_modes) /\
     (forall mode, isValidMode mode = true <-> mode ∈ claimed_modes))
  /\ FileModeDir <> "040000"
  /\ is_ok (FileMode_Validate "040000") = false
  /\ isValidMode "120000" = false.
Proof.
  split; [|split; [|split]]; try done.
  intros [H _]. discriminate H.
Qed.

(** C3, amended.  The object model recognizes exactly "100644" (regular),
    "100755" (executable), "40000" (directory) and "120000" (symlink), its
    directory constant being "40000"; the index recognizes exactly
    "100644", "100755" and "040000". *)
Theorem mode_codes_object_model_and_index :
  FileModeRegular = "100644" /\ FileModeExec = "100755" /\
  FileModeDir = "40000" /\ FileModeSymlink = "120000" /\
  (forall fm, is_ok (FileMode_Validate fm) = true <->
              fm ∈ ["100644"; "100755"; "40000"; "120000"]) /\
  (forall mode, isValidMode mode = true <->
                mode ∈ ["100644"; "100755"; "040000"]).
Proof.
  split; [reflexivity|]. split; [reflexivity|]. split; [reflexivity|].
  split; [reflexivity|]. split.
  - apply FileMode_Validate_iff.
  - apply isValidMode_iff.
Qed.

(** ** Tags *)

(** C9. The tagger of a tag never reaches the serialized bytes: the
    payload holds the empty object under "tagger", so two tags that
    differ in the tagger alone serialize to the same bytes. *)
Theorem tag_serialize_ignores_tagger
    (object : Hash) (objType : ObjectType) (tagName message : string)
    (hash1 hash2 : Hash) (tagger1 tagger2 : Signature) :
  Tag_Serialize (mkTag object objType tagName tagger1 message hash1)
  = Tag_Serialize (mkTag object objType tagName tagger2 message hash2) /\
  exists pre post,
    Tag_Serialize (mkTag object objType tagName tagger1 message hash1)
    = Ok (with_header TagObject
            (JSON.Obj (pre ++ [(bs "tagger", JSON.Obj [])] ++ post))) /\
    JSON.render (JSON.Obj [(bs "tagger", JSON.Obj [])])
    = bs "{" ++ dq "tagger" ++ bs ":{}}".
Proof.
  split; [reflexivity|].
  eexists [_; _; _; _], [_]. split; reflexivity.
Qed.

(** A tree built through the package, for the properties above. *)

Lemma tree_two_reachable : tree_reachable tree_two.
Proof.
  apply (reach_AddEntry (mkTree [entry_src] "") entry_readme).
  - apply (reach_AddEntry NewTree entry_src); [constructor|reflexivity].
  - reflexivity.
Defined.

Lemma tree_AddEntry_sorted_unique_in_place_witness :
  tree_reachable tree_two /\
  (exists t', Tree_AddEntries tree_two [entry_script; entry_readme] = Ok t'
              /\ tree_sorted t') /\
  (exists t', Tree_AddEntry tree_two (mkTreeEntry FileModeExec "src" "dd44" BlobObject)
              = Ok t' /\ length (tree_entries t') = 2%nat).
Proof.
  split; [exact tree_two_reachable|].
  destruct (tree_AddEntry_sorted_unique_in_place tree_two tree_two_reachable)
    as [Hrun Hrep].
  split; [apply Hrun|].
  destruct (Hrep (mkTreeEntry FileModeExec "src" "dd44" BlobObject) 1%nat entry_src
              eq_refl eq_refl) as (t' & Ha & _ & Hl).
  exists t'. split; [exact Ha|exact Hl].
Defined.

(** ** The object store: integrity on read *)

Section StoreFacts.
Variable os : Platform.
Variable zstd : Zstd.

Lemma hashToPath_nonempty store h path :
  hashToPath os store h = Ok path -> Hash_IsEmpty h = false.
Proof.
  unfold hashToPath, Hash_IsEmpty, Hash_String.
  destruct h; [discriminate|reflexivity].
Qed.

(** Whatever [ReadObject] returns was built from bytes whose digest is
    the hash asked for. *)
Lemma ReadObject_Ok_digest store fs h obj :
  ReadObject os zstd store fs h = Ok obj ->
  exists path compressed data,
    hashToPath os store h = Ok path /\ fs !! path = Some compressed /\
    DecompressZstd zstd compressed = Ok data /\ calculateHash data = h.
Proof.
  unfold ReadObject. destruct (Hash_IsEmpty h); [discriminate|].
  destruct (hashToPath os store h) as [path|] eqn:Hp; [|discriminate]. simpl.
  unfold ReadFile.
  destruct (fs !! path) as [compressed|] eqn:Hf; [|discriminate]. simpl.
  destruct (DecompressZstd zstd compressed) as [data|] eqn:Hd; [|discriminate].
  simpl. destruct (calculateHash data =? h)%string eqn:E; [|discriminate].
  intros _. apply String.eqb_eq in E. by exists path, compressed, data.
Qed.

(** C5. When the bytes stored for [h], once decompressed, do not hash
    to [h], reading [h] fails with the integrity error; no object comes
    back. *)
Theorem ReadObject_rejects_digest_mismatch store fs h path compressed data
    (Hpath : hashToPath os store h = Ok path)
    (Hfile : fs !! path = Some compressed)
    (Hdec : DecompressZstd zstd compressed = Ok data)
    (Hdigest : calculateHash data <> h) :
  ReadObject os zstd store fs h
  = Err ("object integrity check failed: expected " +:+ h
         +:+ ", got " +:+ calculateHash data)
  /\ forall obj, ReadObject os zstd store fs h <> Ok obj.
Proof.
  assert (E : ReadObject os zstd store fs h
              = Err ("object integrity check failed: expected " +:+ h
                     +:+ ", got " +:+ calculateHash data)).
  { unfold ReadObject. rewrite (hashToPath_nonempty _ _ _ Hpath), Hpath.
    simpl. unfold ReadFile. rewrite Hfile. simpl. rewrite Hdec. simpl.
    apply String.eqb_neq in Hdigest. by rewrite Hdigest. }
  split; [exact E|]. intros obj. rewrite E. discriminate.
Qed.
End StoreFacts.

(** The corruption test of the store: a blob is written, its file is
    overwritten, the read fails. *)

Lemma ReadObject_rejects_digest_mismatch_witness :
  ReadObject unix Zstd_stored store0 {[ important_path := corrupted ]} important_hash
  = Err ("object integrity check failed: expected " +:+ important_hash
         +:+ ", got " +:+ calculateHash corrupted).
Proof.
  apply (ReadObject_rejects_digest_mismatch unix Zstd_stored store0
           {[ important_path := corrupted ]} important_hash important_path
           corrupted corrupted).
  - vm_compute. reflexivity.
  - apply lookup_singleton_eq.
  - reflexivity.
  - vm_compute. discriminate.
Defined.

(** ** The index *)

Section IndexFacts.
Variable os : Platform.

(** Any failure of [json.Unmarshal] on a non-empty document, and the
    empty document, leave the index empty and [load] successful. *)
Lemma Index_load_unreadable fs idx data :
  fs !! idx_path idx = Some data ->
  is_ok (Unmarshal decode_loadedIndex data
           {| li_Version := 0; li_Entries := None |}) = false ->
  Index_load fs idx = Ok (set_Entries idx (Some ∅)).
Proof.
  intros Hf Hu. unfold Index_load. rewrite Hf.
  destruct (length data =? 0)%nat; [done|].
  destruct (Unmarshal _ _ _); [discriminate|done].
Qed.

(** C7. When the index document exists and is not JSON, [NewIndex]
    succeeds; the index it returns has an empty, non-nil entry map, and
    the file system is untouched. *)
Theorem NewIndex_malformed_document_yields_empty fs repoPath data
    (Hfile : fs !! indexPath os repoPath = Some data)
    (Hbad : JSON.parse data = None) :
  exists idx,
    NewIndex os fs repoPath = Ok (idx, fs) /\
    Index_load fs idx = Ok idx /\
    idx_Entries idx = Some ∅ /\
    Index_Count idx = 0%nat.
Proof.
  exists {| idx_path := indexPath os repoPath; idx_version := 1;
            idx_Version := 1; idx_Entries := Some ∅ |}.
  assert (L : forall idx, idx_path idx = indexPath os repoPath ->
              Index_load fs idx = Ok (set_Entries idx (Some ∅))).
  { intros idx Hp. apply (Index_load_unreadable _ _ data); [by rewrite Hp|].
    unfold Unmarshal. by rewrite Hbad. }
  split; [|split; [|split]].
  - unfold NewIndex. rewrite Hfile. simpl. by rewrite L.
  - by rewrite L.
  - reflexivity.
  - reflexivity.
Qed.
End IndexFacts.

(** The corrupt document of the index tests. *)

Lemma NewIndex_malformed_document_yields_empty_witness :
  exists idx,
    NewIndex unix {[ "/repo/.sib/index" := corruptJSON ]} "/repo"
    = Ok (idx, {[ "/repo/.sib/index" := corruptJSON ]}) /\
    Index_load {[ "/repo/.sib/index" := corruptJSON ]} idx = Ok idx /\
    idx_Entries idx = Some ∅ /\
    Index_Count idx = 0%nat.
Proof.
  apply (NewIndex_malformed_document_yields_empty unix
           {[ "/repo/.sib/index" := corruptJSON ]} "/repo" corruptJSON).
  - vm_compute. reflexivity.
  - vm_compute. reflexivity.
Defined.

(** *** A fresh index is empty *)

Lemma NewIndex_fresh os fs repoPath :
  fs !! indexPath os repoPath = None ->
  exists fs',
    NewIndex os fs repoPath
    = Ok ({| idx_path := indexPath os repoPath; idx_version := 1;
             idx_Version := 1; idx_Entries := Some ∅ |}, fs').
Proof.
  intros Hnone. unfold NewIndex. rewrite Hnone.
  unfold Index_Save, entries_of, set_Entries. simpl.
  unfold encode_Index. simpl.
  assert (Hs : sorted_entries (∅ : gmap string IndexEntry) = []).
  { unfold sorted_entries. by rewrite map_to_list_empty. }
  rewrite Hs. simpl.
  eexists. unfold Index_load. simpl. rewrite lookup_insert_eq.
  reflexivity.
Qed.

Lemma normalizePath_unix_slash : normalizePath unix "a/b.txt" = "a/b.txt".
Proof. reflexivity. Qed.
Lemma normalizePath_unix_backslash : normalizePath unix "a\b.txt" = "a\b.txt".
Proof. reflexivity. Qed.
Lemma normalizePath_unix_dot : normalizePath unix "./a/b.txt" = "a/b.txt".
Proof. reflexivity. Qed.
Lemma normalizePath_windows_slash : normalizePath windows "a/b.txt" = "a/b.txt".
Proof. reflexivity. Qed.
Lemma normalizePath_windows_backslash : normalizePath windows "a\b.txt" = "a/b.txt".
Proof. reflexivity. Qed.
Lemma normalizePath_windows_dot : normalizePath windows "./a/b.txt" = "a/b.txt".
Proof. reflexivity. Qed.

Ltac add_valid Hh Hs Hm :=
  unfold add_three_spellings, Index_Add; simpl;
  rewrite Hh, Hm; simpl;
  destruct (_ <? 0) eqn:?; [lia|]; simpl.

(** Where the backslash is a separator the three spellings share one key. *)
Lemma add_three_spellings_windows now idx hash size mode mtime :
  idx_Entries idx = Some ∅ -> (hash =? "")%string = false -> 0 <= size ->
  isValidMode mode = true ->
  exists idx3,
    add_three_spellings windows now idx hash size mode mtime = Ok idx3 /\
    dom (entries_of idx3) = {[ "a/b.txt" ]} /\ Index_Count idx3 = 1%nat.
Proof.
  intros He Hh Hs Hm. add_valid Hh Hs Hm. rewrite He. simpl.
  rewrite normalizePath_windows_slash, normalizePath_windows_backslash,
    normalizePath_windows_dot.
  eexists. split; [reflexivity|]. unfold Index_Count, entries_of. simpl.
  rewrite !insert_insert_eq. split.
  - rewrite dom_insert_L, dom_empty_L. set_solver.
  - rewrite map_size_insert_None by apply lookup_empty.
    by rewrite map_size_empty.
Qed.

(** Where only the forward slash is a separator the spelling with the
    backslash keeps a key of its own. *)
Lemma add_three_spellings_unix now idx hash size mode mtime :
  idx_Entries idx = Some ∅ -> (hash =? "")%string = false -> 0 <= size ->
  isValidMode mode = true ->
  exists idx3,
    add_three_spellings unix now idx hash size mode mtime = Ok idx3 /\
    dom (entries_of idx3) = {[ "a/b.txt"; "a\b.txt" ]} /\
    Index_Count idx3 = 2%nat.
Proof.
  intros He Hh Hs Hm. add_valid Hh Hs Hm. rewrite He. simpl.
  rewrite normalizePath_unix_slash, normalizePath_unix_backslash,
    normalizePath_unix_dot.
  eexists. split; [reflexivity|]. unfold Index_Count, entries_of. simpl.
  split.
  - rewrite !dom_insert_L, dom_empty_L. set_solver.
  - rewrite map_size_insert_Some; [|by rewrite lookup_insert_ne, lookup_insert_eq].
    rewrite map_size_insert_None; [|by rewrite lookup_insert_ne, lookup_empty].
    rewrite map_size_insert_None by apply lookup_empty.
    by rewrite map_size_empty.
Qed.


(** C4 on a system whose only separator is the forward slash: a fresh
    index, the three calls of the claim, and two entries afterwards, keyed
    "a/b.txt" and "a\b.txt". *)
Theorem index_three_spellings_leave_two_entries_on_unix :
  exists idx0 fs idx3,
    NewIndex unix ∅ "/repo" = Ok (idx0, fs) /\
    add_three_spellings unix noon idx0 "abc123" 1024 "100644" noon = Ok idx3 /\
    dom (entries_of idx3) = {[ "a/b.txt"; "a\b.txt" ]} /\
    Index_Count idx3 = 2%nat.
Proof.
  destruct (NewIndex_fresh unix ∅ "/repo" (lookup_empty _)) as [fs Hnew].
  destruct (add_three_spellings_unix noon
              {| idx_path := indexPath unix "/repo"; idx_version := 1;
                 idx_Version := 1; idx_Entries := Some ∅ |}
              "abc123" 1024 "100644" noon eq_refl eq_refl) as (idx3 & H3 & Hd & Hc);
    [lia|reflexivity|].
  eexists _, fs, idx3. split; [exact Hnew|]. split; [exact H3|]. by split.
Qed.

(** ** The object store: write, then read *)

(** C1 on a tree of two entries.  The tree serializes with two empty
    objects under "entries" (a [TreeEntry] has no exported field); what
    [ReadObject] builds from these bytes is a tree of one entry with
    every field empty, which serializes to other bytes. *)
Theorem tree_of_two_entries_does_not_round_trip :
  exists hash obj fs wire t' wire',
    Serialize (OTree tree_two) = Ok wire /\
    wire = bs "tree 33" ++ [NUL] ++ bs "{" ++ dq "type" ++ bs ":" ++ dq "tree" ++ bs "," ++ dq "entries" ++ bs ":[{},{}]}" /\
    WriteObject unix Zstd_stored store0 ∅ (OTree tree_two) = Ok (hash, obj, fs) /\
    ReadObject unix Zstd_stored store0 fs hash = Ok (OTree t') /\
    tree_entries t' = [TreeEntry_zero] /\
    Serialize (OTree t') = Ok wire' /\
    wire' = bs "tree 30" ++ [NUL] ++ bs "{" ++ dq "type" ++ bs ":" ++ dq "tree" ++ bs "," ++ dq "entries" ++ bs ":[{}]}" /\
    wire' <> wire.
Proof.
  eexists _, _, _, _, _, _.
  split; [vm_compute; reflexivity|].
  split; [reflexivity|].
  split; [vm_compute; reflexivity|].
  split; [vm_compute; reflexivity|].
  split; [reflexivity|].
  split; [vm_compute; reflexivity|].
  split; [reflexivity|].
  discriminate.
Qed.
